(** * The style-function runtime of mapbox-gl-js, embedded in Rocq

    A shallow embedding of [src/style-spec/function/evaluation_context.js]
    (the evaluation context handed to every compiled expression) and of
    [src/style-spec/function/index.js] ([createFunction], the front door),
    followed by the properties the specification states about them.

    - JavaScript numbers are IEEE 754 binary64 values: Rocq's primitive
      [float], compared with [PrimFloat.ltb], [leb], [eqb].
    - JavaScript values are an untyped [value]; the tagged values of the
      runtime ([{type: 'Array', arrayType, items}] and the like) are plain
      objects carrying a [type] property, as in the source.
    - Code that can throw returns a [result]; thunks, which can throw, diverge
      and have effects, live in the monad [M] over an arbitrary state.
    - The [while] loop of the binary search takes fuel.
    - [at], [parseColor], [toString] and [toNumber] of the evaluation
      context are embedded after the other operations, with the conversions
      of the language they rely on.                                         *)

From Stdlib Require Import ZArith List String Ascii Bool Lia Floats DecimalString.
From Stdlib Require Import DecimalNat.
Import ListNotations.

Set Warnings "-register-all".

Local Open Scope list_scope.
Local Open Scope string_scope.

(* ================================================================== *)
(** * JavaScript values *)

(** A plain object lists its own enumerable properties in the order
    [Object.keys] reports them. Function values are not part of the model:
    the functions the code handles (thunks, compiled evaluators) are passed
    as typed arguments. Strings are sequences of code units below 256. *)
Inductive value : Type :=
| Undefined
| Null
| Bool (b : bool)
| Num (x : float)
| Str (s : string)
| PlainArray (items : list value)
| PlainObject (props : list (string * value)).

(** What JavaScript throws. [RuntimeError] is the class of the source
    (name 'ExpressionEvaluationError'); [Error] is the built-in one;
    [TypeError] is the engine's (reading a property of null or undefined,
    calling what is not a function) and its message is the engine's own;
    [AssertionError] is what [assert] throws. *)
Inductive exn : Type :=
| RuntimeError (message : string)
| Error (message : string)
| TypeError
| AssertionError.

Inductive result (A : Type) : Type :=
| Ok (a : A)
| Err (e : exn).
Arguments Ok {A} a.
Arguments Err {A} e.

Definition rbind {A B : Type} (c : result A) (k : A -> result B) : result B :=
  match c with
  | Ok a => k a
  | Err e => Err e
  end.

Notation "x <- c ;; k" := (rbind c (fun x => k))
  (at level 61, c at next level, right associativity).

(** [RuntimeError.prototype.toJSON]. *)
Definition toJSON (e : exn) : option string :=
  match e with
  | RuntimeError message => Some ("ExpressionEvaluationError" ++ ": " ++ message)
  | _ => None
  end.

(* ------------------------------------------------------------------ *)
(** ** Operators of the language *)

Definition typeof (v : value) : string :=
  match v with
  | Undefined => "undefined"
  | Null => "object"
  | Bool _ => "boolean"
  | Num _ => "number"
  | Str _ => "string"
  | PlainArray _ => "object"
  | PlainObject _ => "object"
  end.

(** ToBoolean. *)
Definition truthy (v : value) : bool :=
  match v with
  | Undefined => false
  | Null => false
  | Bool b => b
  | Num x => negb (PrimFloat.eqb x 0 || PrimFloat.is_nan x)
  | Str s => negb (String.eqb s "")
  | PlainArray _ => true
  | PlainObject _ => true
  end.

(** [v === 'literal'] and [v === null]. *)
Definition is_str (v : value) (s : string) : bool :=
  match v with
  | Str s' => String.eqb s' s
  | _ => false
  end.

Definition is_null (v : value) : bool :=
  match v with
  | Null => true
  | _ => false
  end.

(** Relational operators on numbers, an operand being [None] when the array
    read that produced it was out of range ([undefined], which converts to
    NaN, so that every comparison is false). *)
Definition js_lt (a b : option float) : bool :=
  match a, b with
  | Some x, Some y => PrimFloat.ltb x y
  | _, _ => false
  end.

Definition js_le (a b : option float) : bool :=
  match a, b with
  | Some x, Some y => PrimFloat.leb x y
  | _, _ => false
  end.

Definition js_gt (a b : option float) : bool := js_lt b a.
Definition js_ge (a b : option float) : bool := js_le b a.

(** [a === b] with [a] a number: false against [undefined]. *)
Definition js_eq (a b : option float) : bool :=
  match a, b with
  | Some x, Some y => PrimFloat.eqb x y
  | _, _ => false
  end.

(** [array[i]] for an index computed in the integers. *)
Definition elem {A : Type} (array : list A) (i : Z) : option A :=
  if (i <? 0)%Z then None else nth_error array (Z.to_nat i).

Definition elemv (array : list float) (i : Z) : value :=
  match elem array i with
  | Some x => Num x
  | None => Undefined
  end.

(** An array length or index as a number. *)
Definition num_of_nat (n : nat) : float :=
  PrimFloat.of_uint63 (Uint63.of_Z (Z.of_nat n)).

Definition string_of_nat (n : nat) : string :=
  NilEmpty.string_of_uint (Nat.to_uint n).

Fixpoint join (sep : string) (parts : list string) : string :=
  match parts with
  | [] => ""
  | [p] => p
  | p :: rest => p ++ sep ++ join sep rest
  end.

(* ------------------------------------------------------------------ *)
(** ** Own properties *)

Fixpoint lookup (props : list (string * value)) (key : string) : option value :=
  match props with
  | [] => None
  | (k, v) :: rest => if String.eqb k key then Some v else lookup rest key
  end.

(** The index an array-index key denotes, among the first [n]. *)
Definition index_of_key (n : nat) (key : string) : option nat :=
  find (fun i => String.eqb (string_of_nat i) key) (seq 0 n).

Definition own_property (v : value) (key : string) : option value :=
  match v with
  | PlainObject props => lookup props key
  | PlainArray items =>
      if String.eqb key "length" then Some (Num (num_of_nat (List.length items)))
      else match index_of_key (List.length items) key with
           | Some i => nth_error items i
           | None => None
           end
  | Str s =>
      if String.eqb key "length" then Some (Num (num_of_nat (String.length s)))
      else match index_of_key (String.length s) key with
           | Some i => Some (Str (String.substring i 1 s))
           | None => None
           end
  | _ => None
  end.

(** [v.key] on a value that is neither null nor undefined. The reads of this
    code name [type], [arrayType], [items], [value], [expression], [stops],
    [default], [length] or a key that [hasOwnProperty] has accepted: none is
    found on a built-in prototype, so a key that is not an own property reads
    as [undefined]. *)
Definition prop (v : value) (key : string) : value :=
  match own_property v key with
  | Some x => x
  | None => Undefined
  end.

(** [v.key] in general. *)
Definition member (v : value) (key : string) : result value :=
  match v with
  | Undefined => Err TypeError
  | Null => Err TypeError
  | _ => Ok (prop v key)
  end.

(** [v.hasOwnProperty(key)]: the method is looked up on [v] first, and an
    own property of that name shadows [Object.prototype]'s (no value of the
    model is callable). *)
Definition hasOwnProperty (v : value) (key : string) : result bool :=
  match v with
  | Undefined => Err TypeError
  | Null => Err TypeError
  | _ =>
      match own_property v "hasOwnProperty" with
      | Some _ => Err TypeError
      | None =>
          match own_property v key with
          | Some _ => Ok true
          | None => Ok false
          end
      end
  end.

(** [Object.keys(v)]. *)
Definition Object_keys (v : value) : result (list string) :=
  match v with
  | Undefined => Err TypeError
  | Null => Err TypeError
  | PlainObject props => Ok (map fst props)
  | PlainArray items => Ok (map string_of_nat (seq 0 (List.length items)))
  | Str s => Ok (map string_of_nat (seq 0 (String.length s)))
  | _ => Ok []
  end.

(* ------------------------------------------------------------------ *)
(** ** String.prototype and regular expressions *)

Definition upper_ascii (c : ascii) : ascii :=
  let n := nat_of_ascii c in
  if ((97 <=? n) && (n <=? 122))%nat then ascii_of_nat (n - 32) else c.

(** [toUpperCase] on the code units it is applied to here (the results of
    [typeof], which are ASCII). *)
Fixpoint toUpperCase (s : string) : string :=
  match s with
  | EmptyString => EmptyString
  | String c rest => String (upper_ascii c) (toUpperCase rest)
  end.

(** [s.slice(0, 1)] and [s.slice(1)]. *)
Definition slice_0_1 (s : string) : string := String.substring 0 1 s.
Definition slice_1 (s : string) : string := String.substring 1 (String.length s - 1) s.

Definition titlecase (s : string) : string :=
  toUpperCase (slice_0_1 s) ++ slice_1 s.

(** The fragment of regular expressions the source writes. *)
Inductive regex : Type :=
| Void
| Eps
| Chr (c : ascii)
| Seq (r1 r2 : regex)
| Alt (r1 r2 : regex)
| Opt (r : regex).

Fixpoint nullable (r : regex) : bool :=
  match r with
  | Void => false
  | Eps => true
  | Chr _ => false
  | Seq r1 r2 => nullable r1 && nullable r2
  | Alt r1 r2 => nullable r1 || nullable r2
  | Opt _ => true
  end.

Fixpoint deriv (c : ascii) (r : regex) : regex :=
  match r with
  | Void => Void
  | Eps => Void
  | Chr c' => if Ascii.eqb c c' then Eps else Void
  | Seq r1 r2 =>
      if nullable r1 then Alt (Seq (deriv c r1) r2) (deriv c r2)
      else Seq (deriv c r1) r2
  | Alt r1 r2 => Alt (deriv c r1) (deriv c r2)
  | Opt r1 => deriv c r1
  end.

(** Some prefix of [s] matches [r]. *)
Fixpoint matches_prefix (r : regex) (s : string) : bool :=
  nullable r ||
  match s with
  | EmptyString => false
  | String c rest => matches_prefix (deriv c r) rest
  end.

(** [r.test(s)] for a pattern without anchors: a match may start anywhere. *)
Fixpoint regex_test (r : regex) (s : string) : bool :=
  matches_prefix r s ||
  match s with
  | EmptyString => false
  | String _ rest => regex_test r rest
  end.

Fixpoint lit (s : string) : regex :=
  match s with
  | EmptyString => Eps
  | String c rest => Seq (Chr c) (lit rest)
  end.

(** [/Array(<(string|number|boolean)>)?/] *)
Definition Array_pattern : regex :=
  Seq (lit "Array")
      (Opt (Seq (Chr "<")
                (Seq (Alt (lit "string") (Alt (lit "number") (lit "boolean")))
                     (Chr ">")))).

(* ================================================================== *)
(** * Computations with effects *)

Inductive outcome (S A : Type) : Type :=
| Returns (a : A) (s : S)
| Throws (e : exn) (s : S)
| Diverges.
Arguments Returns {S A} a s.
Arguments Throws {S A} e s.
Arguments Diverges {S A}.

(** A computation over a state of type [S]: whatever a thunk can reach. *)
Definition M (S A : Type) : Type := S -> outcome S A.

Definition ret {S A : Type} (a : A) : M S A := fun s => Returns a s.

Definition throw {S A : Type} (e : exn) : M S A := fun s => Throws e s.

Definition bind {S A B : Type} (c : M S A) (k : A -> M S B) : M S B :=
  fun s =>
    match c s with
    | Returns a s' => k a s'
    | Throws e s' => Throws e s'
    | Diverges => Diverges
    end.

Definition lift {S A : Type} (r : result A) : M S A :=
  match r with
  | Ok a => ret a
  | Err e => throw e
  end.

Notation "x <~ c ;; k" := (bind c (fun x => k))
  (at level 61, c at next level, right associativity).

(* ================================================================== *)
(** * What the code takes from outside the repository's shown files *)

(** What a lookup in the [types] table of [getExpectedType] can produce: a
    type of [./types], a member inherited from [Object.prototype], or
    [undefined]. *)
Inductive tyref (Ty : Type) : Type :=
| TyRef (t : Ty)
| TyInherited (member_name : string)
| TyUndefined.
Arguments TyRef {Ty} t.
Arguments TyInherited {Ty} member_name.
Arguments TyUndefined {Ty}.

(** What [JSON.stringify] answered, as a value and as a template literal
    renders it. *)
Definition json_value (json : option string) : value :=
  match json with
  | Some s => Str s
  | None => Undefined
  end.

Definition json_text (json : option string) : string :=
  match json with
  | Some s => s
  | None => "undefined"
  end.

(** Built-ins of the language and the modules the evaluation context
    requires ([../util/interpolate], [./interpolation_factor],
    [./expression], [./types]); none is defined under the shown sources, so
    each is a parameter. *)
Class Host : Type := {
  (** Number::toString *)
  number_toString : float -> string;
  (** [JSON.stringify(v, null, indent)]: a string, or [None] for the
      [undefined] it answers where there is nothing to serialize *)
  JSON_stringify : value -> option nat -> option string;
  (** the type objects of [./types], and their [name] *)
  Ty : Type;
  type_name : Ty -> string;
  ColorType : Ty;
  StringType : Ty;
  NumberType : Ty;
  ValueType : Ty;
  (** [array(itemType, N)] of [./types] *)
  array_type : tyref Ty -> value -> Ty;
  (** [ArrayLiteral.inferArrayType(items)] *)
  inferArrayType : value -> Ty;
  (** [interpolationFactor(input, base, lower, upper)] *)
  interpolationFactor : value -> value -> value -> value -> value;
  (** [interpolate[k]], when the module has a member [k] *)
  interpolate : string -> option (value -> value -> value -> result value)
}.

(* ================================================================== *)
(** * evaluation_context.js *)

Section EvaluationContext.

Context {host : Host}.

(** ToString, as template literals, property keys and
    [RegExp.prototype.test] apply it. An object is converted by its
    [toString] method: the built-in one answers '[object Object]'; an own
    property of that name shadows it and, no value of the model being
    callable, leaves no conversion (nor does [valueOf], which returns the
    object), so that a TypeError is thrown. An array is converted by joining
    the conversions of its items, [undefined] and [null] counting as empty. *)
Fixpoint toStr (v : value) : result string :=
  match v with
  | Undefined => Ok "undefined"
  | Null => Ok "null"
  | Bool true => Ok "true"
  | Bool false => Ok "false"
  | Num x => Ok (number_toString x)
  | Str s => Ok s
  | PlainArray items =>
      parts <- (fix each (l : list value) : result (list string) :=
                  match l with
                  | [] => Ok []
                  | i :: rest =>
                      part <- match i with
                              | Undefined => Ok ""
                              | Null => Ok ""
                              | _ => toStr i
                              end ;;
                      parts <- each rest ;;
                      Ok (part :: parts)
                  end) items ;;
      Ok (join "," parts)
  | PlainObject props =>
      match lookup props "toString" with
      | Some _ => Err TypeError
      | None => Ok "[object Object]"
      end
  end.

(** [name || alt] for an optional string. *)
Definition name_or (name : option string) (alt : string) : string :=
  match name with
  | Some n => if String.eqb n "" then alt else n
  | None => alt
  end.

(** [name ? ... : ...]: an optional string is truthy when given and not empty. *)
Definition name_given (name : option string) : bool :=
  negb (String.eqb (name_or name "") "").

(** [ensure] (lines 25-28): throws a RuntimeError on a falsy condition. *)
Definition ensure (condition : value) (message : string) : result value :=
  if negb (truthy condition) then Err (RuntimeError message)
  else Ok (Bool true).

(** [error] (line 32). *)
Definition error (msg : string) : result value := ensure (Bool false) msg.

(** [typeOf] (lines 53-60). *)
Definition typeOf (x : value) : value :=
  if is_null x then Str "Null"
  else if String.eqb (typeof x) "object" then
    if is_str (prop x "type") "Array" then prop x "arrayType"
    else prop x "type"
  else Str (titlecase (typeof x)).

(** [as] (lines 63-72; the name is a keyword of Rocq): the type assertion.
    The conversion of [type] to a string, by the pattern's [test] or by the
    message, comes before [ensure] is called. *)
Definition as_ (v : value) (expectedType : string) (name : option string)
  : result value :=
  let type := typeOf v in
  if String.eqb expectedType "Array" then
    found <- toStr type ;;
    _ <- ensure (Bool (regex_test Array_pattern found))
                ("Expected " ++ name_or name "value"
                 ++ " to be an Array, but found " ++ found ++ " instead.") ;;
    Ok v
  else
    found <- toStr type ;;
    _ <- ensure (Bool (is_str type expectedType))
                ("Expected " ++ name_or name "value" ++ " to be of type "
                 ++ expectedType ++ ", but found " ++ found ++ " instead.") ;;
    Ok v.

(** [has] (lines 48-51). *)
Definition has (obj : value) (key : string) (name : option string)
  : result value :=
  _ <- ensure obj ("Cannot get property " ++ key ++ " from null object"
                   ++ (if name_given name then " " ++ name_or name "" else "")
                   ++ ".") ;;
  o <- as_ obj "Object" name ;;
  v <- member o "value" ;;
  b <- hasOwnProperty v key ;;
  Ok (Bool b).

(** [array] (lines 107-113). *)
Definition array (arrayType : value) (items : value) : value :=
  let arrayType :=
    if negb (truthy arrayType) then Str (type_name (inferArrayType items))
    else arrayType in
  PlainObject [("type", Str "Array"); ("arrayType", arrayType); ("items", items)].

(** [object] (lines 115-117). *)
Definition object (v : value) : value :=
  PlainObject [("type", Str "Object"); ("value", v)].

(** [Array.isArray]. *)
Definition isArray (v : value) : bool :=
  match v with
  | PlainArray _ => true
  | _ => false
  end.

(** [get] (lines 39-46). The arguments of [ensure] are evaluated in order:
    [this.has(...)] first, then the message, whose list of keys is only
    computed when no name is given. *)
Definition get (obj : value) (key : string) (name : option string)
  : result value :=
  h <- has obj key name ;;
  place <- (if name_given name then Ok (name_or name "")
            else
              keys <- Object_keys obj ;;
              Ok ("object with keys: [" ++ join ", " keys ++ "]")) ;;
  _ <- ensure h ("Property '" ++ key ++ "' not found in " ++ place) ;;
  v <- member obj "value" ;;
  val <- member v key ;;
  if isArray val then Ok (array Null val)
  else if truthy val && String.eqb (typeof val) "object" then Ok (object val)
  else Ok val.

(** [rgba] (lines 95-105); an omitted [a] is [undefined]. *)
Definition rgba (r g b : float) (a : value) : value :=
  PlainObject
    [("type", Str "Color");
     ("value", PlainArray [Num (r / 255)%float;
                           Num (g / 255)%float;
                           Num (b / 255)%float;
                           if String.eqb (typeof a) "undefined" then Num 1%float
                           else a])].

(** [unwrap] (lines 131-143). *)
Definition unwrap (maybeWrapped : value) : result value :=
  if negb (truthy maybeWrapped)
     || negb (String.eqb (typeof maybeWrapped) "object")
  then Ok maybeWrapped
  else if is_str (prop maybeWrapped "type") "Color"
          || is_str (prop maybeWrapped "type") "Object"
  then Ok (prop maybeWrapped "value")
  else if is_str (prop maybeWrapped "type") "Array"
  then Ok (prop maybeWrapped "items")
  else Err (Error ("Unrecognized value: "
                   ++ json_text (JSON_stringify maybeWrapped None))).

(* ------------------------------------------------------------------ *)
(** ** The binary search *)

(** The [while] loop of [findStopLessThanOrEqualTo], one iteration per unit
    of fuel; [None] when the fuel runs out. When neither [else if] applies
    (a NaN operand) the iteration changes nothing. *)
Fixpoint findStop_loop (fuel : nat) (stops : list float) (input : float)
  (lowerIndex upperIndex currentIndex : Z) : option Z :=
  if (lowerIndex <=? upperIndex)%Z then
    match fuel with
    | O => None
    | S fuel' =>
        let currentIndex := ((lowerIndex + upperIndex) / 2)%Z in
        let currentValue := elem stops currentIndex in
        let upperValue := elem stops (currentIndex + 1)%Z in
        if js_eq (Some input) currentValue
           || js_gt (Some input) currentValue && js_lt (Some input) upperValue
        then Some currentIndex
        else if js_lt currentValue (Some input)
        then findStop_loop fuel' stops input (currentIndex + 1)%Z upperIndex currentIndex
        else if js_gt currentValue (Some input)
        then findStop_loop fuel' stops input lowerIndex (currentIndex - 1)%Z currentIndex
        else findStop_loop fuel' stops input lowerIndex upperIndex currentIndex
    end
  else Some (Z.max (currentIndex - 1) 0).

(** [findStopLessThanOrEqualTo] (lines 195-216). *)
Definition findStopLessThanOrEqualTo (fuel : nat) (stops : list float)
  (input : float) : option Z :=
  let n := Z.of_nat (List.length stops) in
  findStop_loop fuel stops input 0%Z (n - 1)%Z 0%Z.

(* ------------------------------------------------------------------ *)
(** ** Thunks, [coalesce] and [evaluateCurve] *)

Context {S : Type}.

(** A zero-argument function of the compiled code. *)
Definition thunk : Type := M S value.

(** [fs[i]()]: calling [undefined] is a TypeError. *)
Definition call (fs : list thunk) (i : Z) : M S value :=
  match elem fs i with
  | Some f => f
  | None => throw TypeError
  end.

(** [coalesce] (lines 74-84). Each iteration of [while (true)] removes the
    head of [thunks], so the loop is a recursion on the list. *)
Fixpoint coalesce (thunks : list thunk) : M S value :=
  match thunks with
  | [] => ret Null
  | f :: thunks' =>
      fun s =>
        match f s with
        | Returns result s' =>
            if negb (is_null result) then Returns result s'
            else coalesce thunks' s'
        | Throws e s' =>
            match thunks' with
            | [] => Throws e s'
            | _ :: _ => coalesce thunks' s'
            end
        | Diverges => Diverges
        end
  end.

Record InterpolationType : Type := {
  interpolation_name : string;
  interpolation_base : value
}.

(** [interpolate[k](a, b, t)]. *)
Definition interpolate_call (k : string) (a b t : value) : result value :=
  match interpolate k with
  | Some f => f a b t
  | None => Err TypeError
  end.

(** [evaluateCurve] (lines 145-183).
    [input] is a number by its Flow annotation, and so passes the assertion
    the function starts with; [fuel] bounds the iterations of the search. *)
Definition evaluateCurve (fuel : nat) (input : float) (stopInputs : list float)
  (stopOutputs : list thunk) (interpolation : InterpolationType)
  (resultType : string) : M S value :=
  _ <~ lift (as_ (Num input) "Number" (Some "curve input")) ;;
  let stopCount := Z.of_nat (List.length stopInputs) in
  if (stopCount =? 1)%Z then call stopOutputs 0%Z
  else if js_le (Some input) (elem stopInputs 0%Z) then call stopOutputs 0%Z
  else if js_ge (Some input) (elem stopInputs (stopCount - 1)%Z)
  then call stopOutputs (stopCount - 1)%Z
  else
    match findStopLessThanOrEqualTo fuel stopInputs input with
    | None => fun _ => Diverges
    | Some index =>
        if String.eqb (interpolation_name interpolation) "step"
        then call stopOutputs index
        else
          let base :=
            if String.eqb (interpolation_name interpolation) "exponential"
            then interpolation_base interpolation
            else Num 1%float in
          let t := interpolationFactor (Num input) base
                     (elemv stopInputs index) (elemv stopInputs (index + 1)%Z) in
          outputLower <~ call stopOutputs index ;;
          outputUpper <~ call stopOutputs (index + 1)%Z ;;
          if String.eqb resultType "color" then
            lower <~ lift (member outputLower "value") ;;
            upper <~ lift (member outputUpper "value") ;;
            c <~ lift (interpolate_call "color" lower upper t) ;;
            ret (PlainObject [("type", Str "Color"); ("value", c)])
          else if String.eqb resultType "array" then
            arrayType <~ lift (member outputLower "type") ;;
            lower <~ lift (member outputLower "items") ;;
            upper <~ lift (member outputUpper "items") ;;
            items <~ lift (interpolate_call "array" lower upper t) ;;
            ret (array arrayType items)
          else lift (interpolate_call resultType outputLower outputUpper t)
    end.

End EvaluationContext.

(* ------------------------------------------------------------------ *)
(** ** The other operations of the context *)

(** [r.test(s)] for a pattern anchored at both ends ([/^...$/]): the whole
    of [s] matches [r]. *)
Fixpoint regex_full (r : regex) (s : string) : bool :=
  match s with
  | EmptyString => nullable r
  | String c rest => regex_full (deriv c r) rest
  end.

(** The body of [/^(String|Number|Boolean)$/]. *)
Definition primitive_pattern : regex :=
  Alt (lit "String") (Alt (lit "Number") (lit "Boolean")).

(** The double quote, as a string. *)
Definition dquote : string := String (ascii_of_nat 34) EmptyString.

Section ContextConversions.

Context {host : Host}.

(** StringToNumber of the language, and [parseColor] of
    [../util/parse_color] (an array of channels, or [undefined]): neither is
    defined under the shown sources. *)
Variable string_toNumber : string -> float.
Variable css_parseColor : string -> value.

(** ToNumber, as [Number(v)] and the relational operators apply it. An
    object or an array is first converted to a string as [toStr] does (its
    [valueOf] returns the object itself), which can throw. *)
Definition ToNumber (v : value) : result float :=
  match v with
  | Undefined => Ok PrimFloat.nan
  | Null => Ok 0%float
  | Bool true => Ok 1%float
  | Bool false => Ok 0%float
  | Num x => Ok x
  | Str s => Ok (string_toNumber s)
  | PlainArray _ => s <- toStr v ;; Ok (string_toNumber s)
  | PlainObject _ => s <- toStr v ;; Ok (string_toNumber s)
  end.

(** [at] (lines 34-37; the name is a keyword of Rocq). The condition is
    evaluated first, then the message, then [ensure] is called. *)
Definition at_ (index : float) (array : value) : result value :=
  items <- member array "items" ;;
  length <- member items "length" ;;
  n <- ToNumber length ;;
  type <- member array "type" ;;
  tag <- toStr type ;;
  size <- toStr length ;;
  _ <- ensure (Bool (PrimFloat.ltb index n))
              (tag ++ " index out of bounds: " ++ number_toString index
               ++ " > " ++ size ++ ".") ;;
  member items (number_toString index).

(** [parseColor] (lines 86-93). *)
Definition parseColor (input : string) : result value :=
  let c := PlainObject [("type", Str "Color"); ("value", css_parseColor input)] in
  _ <- ensure (Bool (negb (String.eqb (typeof (prop c "value")) "undefined")))
              ("Could not parse color from value '" ++ input ++ "'") ;;
  Ok c.

(** [toString] (lines 119-123). *)
Definition toString (v : value) : result value :=
  let type := typeOf v in
  found <- toStr type ;;
  _ <- ensure (Bool (is_null v || regex_full primitive_pattern found))
              ("Expected a primitive value in [" ++ dquote ++ "string" ++ dquote
               ++ ", ...], but found " ++ found ++ " instead.") ;;
  s <- toStr v ;;
  Ok (Str s).

(** [toNumber] (lines 125-129). The message, and with it [unwrap(value)],
    is evaluated whether or not the conversion gave a number. *)
Definition toNumber (v : value) : result value :=
  num <- ToNumber v ;;
  unwrapped <- unwrap v ;;
  _ <- ensure (Bool (negb (PrimFloat.is_nan num)))
              ("Could not convert " ++ json_text (JSON_stringify unwrapped None)
               ++ " to number.") ;;
  Ok (Num num).

End ContextConversions.

(* ================================================================== *)
(** * index.js *)

(** One entry of [compiled.errors]. *)
Record CompileError : Type := {
  err_key : string;
  err_error : string
}.

(** A node of the compiled expression, as far as [createFunction] reads it:
    [name], [args] (absent on a node without arguments), [value] (of a
    literal) and what [serialize()] does. *)
Inductive Expression : Type :=
| ExpressionNode (name : value) (args : option (list Expression))
                 (literal : value) (serialized : result value).

Definition expr_name (e : Expression) : value :=
  match e with ExpressionNode name _ _ _ => name end.
Definition expr_args (e : Expression) : option (list Expression) :=
  match e with ExpressionNode _ args _ _ => args end.
Definition expr_value (e : Expression) : value :=
  match e with ExpressionNode _ _ literal _ => literal end.
Definition expr_serialize (e : Expression) : result value :=
  match e with ExpressionNode _ _ _ serialized => serialized end.

(** What [compileExpression] returns: [{result: 'success', function,
    isFeatureConstant, isZoomConstant, expression}] or
    [{result: 'error', errors}]. *)
Record Compiled (S : Type) : Type := {
  compiled_function : value -> value -> M S value;
  compiled_isFeatureConstant : bool;
  compiled_isZoomConstant : bool;
  compiled_expression : Expression
}.
Arguments compiled_function {S} c.
Arguments compiled_isFeatureConstant {S} c.
Arguments compiled_isZoomConstant {S} c.
Arguments compiled_expression {S} c.

Inductive CompileResult (S : Type) : Type :=
| CompileSuccess (compiled : Compiled S)
| CompileFailure (errors : list CompileError).
Arguments CompileSuccess {S} compiled.
Arguments CompileFailure {S} errors.

(** [./compile] and [./convert], required by index.js and not shown. *)
Class Collaborators (host : Host) (S : Type) : Type := {
  (** [convert.value(value, spec)] *)
  convert_value : value -> value -> result value;
  (** [convert.function(parameters, spec)] *)
  convert_function : value -> value -> result value;
  (** [compileExpression(expr, expectedType)] *)
  compileExpression : value -> tyref Ty -> CompileResult S
}.

(** The function [f] that [createFunction] returns, with the properties it
    sets on it. *)
Record CompiledFunction (S : Type) : Type := {
  f_call : value -> value -> M S value;
  isFeatureConstant : bool;
  isZoomConstant : bool;
  zoomStops : option (list value);
  interpolationT : option (value -> value -> M S value)
}.
Arguments f_call {S} c.
Arguments isFeatureConstant {S} c.
Arguments isZoomConstant {S} c.
Arguments zoomStops {S} c.
Arguments interpolationT {S} c.

Section FunctionBuilder.

Context {host : Host} {S : Type} {collab : Collaborators host S}.

(** [isFunctionDefinition] (lines 71-74): the value of the [&&]/[||] chain. *)
Definition isFunctionDefinition (v : value) : result value :=
  if String.eqb (typeof v) "object" then
    expression <- member v "expression" ;;
    if truthy expression then Ok expression
    else
      stops <- member v "stops" ;;
      if truthy stops then Ok stops
      else
        type <- member v "type" ;;
        Ok (Bool (is_str type "identity"))
  else Ok (Bool false).

Definition types_table : list (string * Ty) :=
  [("color", ColorType);
   ("string", StringType);
   ("number", NumberType);
   ("enum", StringType);
   ("image", StringType)].

Definition Object_prototype_members : list string :=
  ["constructor"; "__defineGetter__"; "__defineSetter__"; "hasOwnProperty";
   "__lookupGetter__"; "__lookupSetter__"; "isPrototypeOf";
   "propertyIsEnumerable"; "toString"; "valueOf"; "__proto__";
   "toLocaleString"].

(** [types[k]]: the key is converted to a string, which can throw; the table
    is an object literal, so the members of [Object.prototype] are found
    through it. *)
Definition types_lookup (k : value) : result (tyref Ty) :=
  key <- toStr k ;;
  Ok match find (fun entry => String.eqb (fst entry) key) types_table with
     | Some entry => TyRef (snd entry)
     | None =>
         if existsb (String.eqb key) Object_prototype_members
         then TyInherited key
         else TyUndefined
     end.

(** [getExpectedType] (lines 76-90). *)
Definition getExpectedType (spec : value) : result (tyref Ty) :=
  type <- member spec "type" ;;
  if is_str type "array" then
    item <- member spec "value" ;;
    itemType <- types_lookup item ;;
    length <- member spec "length" ;;
    Ok (TyRef (array_type
                 match itemType with
                 | TyUndefined => TyRef ValueType
                 | found => found
                 end
                 length))
  else types_lookup type.

(** The three ways [createFunction] obtains [expr]. *)
Definition normalize (parameters propertySpec : value) : result value :=
  isDefinition <- isFunctionDefinition parameters ;;
  if negb (truthy isDefinition) then convert_value parameters propertySpec
  else
    expression <- member parameters "expression" ;;
    if truthy expression then
      default <- member propertySpec "default" ;;
      if negb (String.eqb (typeof default) "undefined") then
        specDefault <- convert_value default Undefined ;;
        Ok (PlainArray [Str "coalesce"; expression; specDefault])
      else Ok expression
    else convert_function parameters propertySpec.

(** [curveArgs[i].value] for [i = 2, 4, ...], given [curveArgs] from index
    2 on. *)
Fixpoint stops_of (curveArgs : list Expression) : list value :=
  match curveArgs with
  | [] => []
  | stop :: rest =>
      expr_value stop ::
      match rest with
      | [] => []
      | _ :: rest' => stops_of rest'
      end
  end.

(** [interpExpression.push(f.zoomStops[i], i)] for [i] from [i0] on. *)
Fixpoint push_stops (i0 : nat) (zoomStops : list value) : list value :=
  match zoomStops with
  | [] => []
  | z :: rest => z :: Num (num_of_nat i0) :: push_stops (Datatypes.S i0) rest
  end.

(** The [if (!f.isZoomConstant)] block: [f.zoomStops] and, for a function
    that also depends on the feature, [f.interpolationT]. *)
Definition curve_metadata (compiled : Compiled S)
  : result (list value * option (value -> value -> M S value)) :=
  let curve := compiled_expression compiled in
  curve <- (if negb (is_str (expr_name curve) "curve") then
              match expr_args curve with
              | Some (first :: _) => Ok first
              | _ => Err TypeError
              end
            else Ok curve) ;;
  let curveArgs :=
    match expr_args curve with
    | Some args => args
    | None => []
    end in
  serialized <- expr_serialize curve ;;
  interpolation <- member serialized "1" ;;
  let zoomStops := stops_of (skipn 2 curveArgs) in
  if negb (compiled_isFeatureConstant compiled) then
    let interpExpression :=
      PlainArray (Str "curve" :: interpolation :: PlainArray [Str "zoom"]
                  :: push_stops 0 zoomStops) in
    match compileExpression
            (PlainArray [Str "coalesce"; interpExpression; Num 0%float])
            (TyRef NumberType) with
    | CompileSuccess interpFunction =>
        Ok (zoomStops, Some (compiled_function interpFunction))
    | CompileFailure _ => Err AssertionError
    end
  else Ok (zoomStops, None).

(** [createFunction] (lines 7-66): what it writes with [console.log], and
    what it returns or throws. *)
Definition createFunction (parameters propertySpec : value)
  : list value * result (CompiledFunction S) :=
  match normalize parameters propertySpec with
  | Err e => ([], Err e)
  | Ok expr =>
      match getExpectedType propertySpec with
      | Err e => ([], Err e)
      | Ok expectedType =>
          match compileExpression expr expectedType with
          | CompileSuccess compiled =>
              let f := fun zoom properties =>
                val <~ compiled_function compiled
                         (PlainObject [("zoom", zoom)])
                         (PlainObject [("properties", properties)]) ;;
                ret (if is_null val then Undefined else val) in
              if negb (compiled_isZoomConstant compiled) then
                match curve_metadata compiled with
                | Ok (stops, interp) =>
                    ([], Ok {| f_call := f;
                               isFeatureConstant := compiled_isFeatureConstant compiled;
                               isZoomConstant := compiled_isZoomConstant compiled;
                               zoomStops := Some stops;
                               interpolationT := interp |})
                | Err e => ([], Err e)
                end
              else
                ([], Ok {| f_call := f;
                           isFeatureConstant := compiled_isFeatureConstant compiled;
                           isZoomConstant := compiled_isZoomConstant compiled;
                           zoomStops := None;
                           interpolationT := None |})
          | CompileFailure errors =>
              (json_value (JSON_stringify expr (Some 2))
               :: map (fun err => Str (err_key err ++ ": " ++ err_error err)) errors,
               Err (Error (join ", "
                             (map (fun err => err_key err ++ ": " ++ err_error err)
                                  errors))))
          end
      end
  end.

End FunctionBuilder.

(* ================================================================== *)
(** * A host to run the code on *)

Module Sample.

(** Modelled from the spec: the helper [interpolate.number] of
    [../util/interpolate], missing from the shown sources; "scalar/numeric
    linear blend at t". *)
Definition interpolate_number (a b t : float) : float :=
  (a * (1 - t) + b * t)%float.

(** Modelled from the spec: the helper [interpolate.array] (and
    [interpolate.color], which blends a channel tuple the same way), missing
    from the shown sources; "component-wise linear blend of item sequences at
    t (requires equal lengths)", a mismatch being "a fatal error". *)
Fixpoint blend_items (lower upper : list value) (t : float)
  : option (list value) :=
  match lower, upper with
  | [], [] => Some []
  | Num a :: lower', Num b :: upper' =>
      match blend_items lower' upper' t with
      | Some rest => Some (Num (interpolate_number a b t) :: rest)
      | None => None
      end
  | _, _ => None
  end.

Definition interpolate_array (lower upper t : value) : result value :=
  match lower, upper, t with
  | PlainArray ls, PlainArray us, Num t' =>
      match blend_items ls us t' with
      | Some items => Ok (PlainArray items)
      | None => Err (Error "array length mismatch")
      end
  | _, _, _ => Err TypeError
  end.

(** Modelled from the spec: [interpolationFactor] of
    [./interpolation_factor], missing from the shown sources; "When base == 1:
    t = (input - lowerInput) / (upperInput - lowerInput) (linear). Otherwise
    (exponential base b): t = (b^(input-lowerInput) - 1) /
    (b^(upperInput-lowerInput) - 1)". The power function of the language is
    the parameter [pow]. *)
Definition interpolation_factor (pow : float -> float -> float)
  (input base lower upper : value) : value :=
  match input, base, lower, upper with
  | Num x, Num b, Num lo, Num hi =>
      if PrimFloat.eqb b 1 then Num ((x - lo) / (hi - lo))%float
      else Num ((pow b (x - lo) - 1) / (pow b (hi - lo) - 1))%float
  | _, _, _, _ => Num PrimFloat.nan
  end.

(** Modelled from the spec: [ArrayLiteral.inferArrayType] of [./expression],
    missing from the shown sources; "infers the narrowest common element type
    by inspecting item tags (falls back to a general element type when items
    disagree)". A type is represented by its name. *)
Definition infer_array_type (items : value) : string :=
  match items with
  | PlainArray (first :: rest) =>
      let tag := typeof first in
      if forallb (fun i => String.eqb (typeof i) tag) rest
         && (String.eqb tag "string" || String.eqb tag "number"
             || String.eqb tag "boolean")
      then "Array<" ++ tag ++ ">"
      else "Array"
  | _ => "Array"
  end.

(** No example formats a number, prints JSON or raises to a power (each
    curve of the examples is a step or a linear one, of base 1): the three
    built-ins are placeholders. *)
Definition host : Host := {|
  number_toString := fun _ => "NaN";
  JSON_stringify := fun _ _ => None;
  Ty := string;
  type_name := fun t => t;
  ColorType := "Color";
  StringType := "String";
  NumberType := "Number";
  ValueType := "Value";
  array_type := fun item _ =>
    match item with
    | TyRef t => "Array<" ++ t ++ ">"
    | _ => "Array"
    end;
  inferArrayType := infer_array_type;
  interpolationFactor := interpolation_factor (fun _ _ => PrimFloat.nan);
  interpolate := fun k =>
    if String.eqb k "array" || String.eqb k "color" then Some interpolate_array
    else if String.eqb k "number" then
      Some (fun a b t =>
              match a, b, t with
              | Num x, Num y, Num t' => Ok (Num (interpolate_number x y t'))
              | _, _, _ => Err TypeError
              end)
    else None
|}.

(** The state of the examples: the names of the thunks evaluated so far. *)
Definition log : Type := list string.

Definition returning (name : string) (v : value) : @thunk log :=
  fun s => Returns v (s ++ [name])%list.

Definition failing (name : string) (message : string) : @thunk log :=
  fun s => Throws (RuntimeError message) (s ++ [name])%list.

Definition step : InterpolationType :=
  {| interpolation_name := "step"; interpolation_base := Undefined |}.

Definition linear : InterpolationType :=
  {| interpolation_name := "linear"; interpolation_base := Undefined |}.

(** Three stop outputs that are numbers, and two that are arrays of
    numbers. *)
Definition numbers : list (@thunk log) :=
  [returning "a" (Num 1); returning "b" (Num 2); returning "c" (Num 3)].

Definition arrays : list (@thunk log) :=
  [returning "lower"
     (PlainObject [("type", Str "Array"); ("arrayType", Str "Array<number>");
                   ("items", PlainArray [Num 0; Num 0])]);
   returning "upper"
     (PlainObject [("type", Str "Array"); ("arrayType", Str "Array<number>");
                   ("items", PlainArray [Num 10; Num 20])])].

(** A compiler that accepts number literals only, and converters that pass
    their input through. *)
Definition compile (expr : value) (expectedType : tyref (@Ty host))
  : CompileResult log :=
  match expr with
  | Num x =>
      CompileSuccess
        {| compiled_function := fun _ _ => ret (Num x);
           compiled_isFeatureConstant := true;
           compiled_isZoomConstant := true;
           compiled_expression :=
             ExpressionNode (Str "literal") None (Num x) (Ok (Num x)) |}
  | _ =>
      CompileFailure
        [{| err_key := ""; err_error := "Expected number but found string instead." |};
         {| err_key := "[1]"; err_error := "Unknown expression." |}]
  end.

Definition collaborators : Collaborators host log := {|
  convert_value := fun v _ => Ok v;
  convert_function := fun v _ => Ok v;
  compileExpression := compile
|}.

End Sample.

(** A host that formats integers, for the examples that read an array by
    index. *)
Module Formatting.

(** Number::toString on the integers of magnitude below 1e21, which it
    writes in plain decimal digits; the other finite numbers are outside
    this sample and are written as NaN is. *)
Definition integer_toString (x : float) : string :=
  match Prim2SF x with
  | S754_zero _ => "0"
  | S754_infinity false => "Infinity"
  | S754_infinity true => "-Infinity"
  | S754_nan => "NaN"
  | S754_finite negative m e =>
      let digits :=
        if (0 <=? e)%Z then Some (Z.to_nat (Z.pos m * 2 ^ e))
        else if (Z.pos m mod 2 ^ (- e) =? 0)%Z
             then Some (Z.to_nat (Z.pos m / 2 ^ (- e)))
             else None in
      match digits with
      | Some n => (if negative then "-" else "") ++ string_of_nat n
      | None => "NaN"
      end
  end.

Definition host : Host := {|
  number_toString := integer_toString;
  JSON_stringify := @JSON_stringify Sample.host;
  Ty := @Ty Sample.host;
  type_name := @type_name Sample.host;
  ColorType := @ColorType Sample.host;
  StringType := @StringType Sample.host;
  NumberType := @NumberType Sample.host;
  ValueType := @ValueType Sample.host;
  array_type := @array_type Sample.host;
  inferArrayType := @inferArrayType Sample.host;
  interpolationFactor := @interpolationFactor Sample.host;
  interpolate := @interpolate Sample.host
|}.

End Formatting.

(** A compiler whose results depend on the zoom, for the examples of the
    metadata that [createFunction] extracts. *)
Module ZoomSample.

Definition literal (v : value) : Expression :=
  ExpressionNode (Str "literal") None v (Ok (PlainArray [Str "literal"; v])).

(** The node of [['curve', ['linear'], ['zoom'], 0, 1, 10, 2]]. *)
Definition curve : Expression :=
  ExpressionNode (Str "curve")
    (Some [ExpressionNode (Str "linear") None Undefined (Ok (PlainArray [Str "linear"]));
           ExpressionNode (Str "zoom") (Some []) Undefined (Ok (PlainArray [Str "zoom"]));
           literal (Num 0); literal (Num 1); literal (Num 10); literal (Num 2)])
    Undefined
    (Ok (PlainArray [Str "curve"; PlainArray [Str "linear"];
                     PlainArray [Str "zoom"]; Num 0; Num 1; Num 10; Num 2])).

Definition constantly (v : value) : value -> value -> M Sample.log value :=
  fun _ _ => ret v.

(** 'zoom' compiles to the curve, 'zoom and feature' to the curve under a
    coalesce that also reads the feature, an array (the auxiliary
    expression) to a function of the zoom; anything else is rejected. *)
Definition compile (expr : value) (expectedType : tyref (@Ty Sample.host))
  : CompileResult Sample.log :=
  match expr with
  | Str "zoom" =>
      CompileSuccess
        {| compiled_function := constantly (Num 1);
           compiled_isFeatureConstant := true;
           compiled_isZoomConstant := false;
           compiled_expression := curve |}
  | Str "zoom and feature" =>
      CompileSuccess
        {| compiled_function := constantly Null;
           compiled_isFeatureConstant := false;
           compiled_isZoomConstant := false;
           compiled_expression :=
             ExpressionNode (Str "coalesce") (Some [curve; literal (Num 0)])
               Undefined (Ok (PlainArray [Str "coalesce"])) |}
  | PlainArray _ =>
      CompileSuccess
        {| compiled_function := constantly (Num 0.5);
           compiled_isFeatureConstant := true;
           compiled_isZoomConstant := false;
           compiled_expression := curve |}
  | _ => CompileFailure [{| err_key := ""; err_error := "Unknown expression." |}]
  end.

Definition collaborators : Collaborators Sample.host Sample.log := {|
  convert_value := fun v _ => Ok v;
  convert_function := fun v _ => Ok v;
  compileExpression := compile
|}.

End ZoomSample.

(* ================================================================== *)
(** * Predicates of the statements *)

(** Adjacent stops increase strictly. *)
Fixpoint strictly_increasing (stops : list float) : bool :=
  match stops with
  | x :: ((y :: _) as rest) => PrimFloat.ltb x y && strictly_increasing rest
  | _ => true
  end.

(** [i] is the greatest index whose stop is at most [input]. *)
Definition greatest_stop_le (stops : list float) (input : float) (i : Z) : Prop :=
  (0 <= i < Z.of_nat (List.length stops))%Z
  /\ js_le (elem stops i) (Some input) = true
  /\ forall j, (i < j < Z.of_nat (List.length stops))%Z ->
               js_le (elem stops j) (Some input) = false.

(** Adjacent stops do not decrease: a stop set sorted by input. *)
Fixpoint nondecreasing (stops : list float) : bool :=
  match stops with
  | x :: ((y :: _) as rest) => PrimFloat.leb x y && nondecreasing rest
  | _ => true
  end.

(** What the loop of the search tests before it returns [i]. *)
Definition search_complete (stops : list float) (input : float) (i : Z) : Prop :=
  exists v, elem stops i = Some v
            /\ (PrimFloat.eqb input v = true
                \/ (PrimFloat.ltb v input = true
                    /\ exists u, elem stops (i + 1)%Z = Some u
                                 /\ PrimFloat.ltb input u = true)).

(** Running the thunks of a list in order from state [s], every one of them
    returns null or throws, and the state is [s'] afterwards. *)
Inductive skipped {S : Type} : list (@thunk S) -> S -> S -> Prop :=
| skipped_nil (s : S) : skipped [] s s
| skipped_null (f : @thunk S) (fs : list (@thunk S)) (s s1 s2 : S) :
    f s = Returns Null s1 -> skipped fs s1 s2 -> skipped (f :: fs) s s2
| skipped_throw (f : @thunk S) (fs : list (@thunk S)) (e : exn) (s s1 s2 : S) :
    f s = Throws e s1 -> skipped fs s1 s2 -> skipped (f :: fs) s s2.

(** The Array value [{type: 'Array', arrayType, items}]. *)
Definition ArrayValue (arrayType : string) (items : value) : value :=
  PlainObject [("type", Str "Array"); ("arrayType", Str arrayType);
               ("items", items)].

(** The Color value [{type: 'Color', value: [r, g, b, a]}]. *)
Definition ColorValue (r g b : float) (a : value) : value :=
  PlainObject [("type", Str "Color");
               ("value", PlainArray [Num r; Num g; Num b; a])].

(** The arguments of a curve node after its first two: stop inputs and
    outputs in turn. *)
Definition interleave (pairs : list (Expression * Expression)) : list Expression :=
  flat_map (fun p => [fst p; snd p]) pairs.

(** Where [createFunction] looks for the curve: the root of the compiled
    expression when it is named 'curve', the first argument of the root
    otherwise. *)
Definition curve_located (root curve : Expression) : Prop :=
  (is_str (expr_name root) "curve" = true /\ curve = root)
  \/ (is_str (expr_name root) "curve" = false
      /\ exists rest, expr_args root = Some (curve :: rest)).

(** [['coalesce', ['curve', interpolation, ['zoom'], z0, 0, z1, 1, ...], 0]] *)
Definition auxiliary_expression (interpolation : value) (zoomStops : list value)
  : value :=
  PlainArray
    [Str "coalesce";
     PlainArray (Str "curve" :: interpolation :: PlainArray [Str "zoom"]
                 :: flat_map (fun p => [snd p; Num (num_of_nat (fst p))])
                      (combine (seq 0 (List.length zoomStops)) zoomStops));
     Num 0].

(** How [createFunction] renders one entry of [compiled.errors]. *)
Definition render_error (err : CompileError) : string :=
  err_key err ++ ": " ++ err_error err.

(** The element-type variants of an Array value's [arrayType]. *)
Definition array_type_variants : list string :=
  ["Array"; "Array<string>"; "Array<number>"; "Array<boolean>"].

(* ================================================================== *)
(** * The order of binary64 numbers *)

(** Every number but NaN has a key in the lexicographic order of integer
    triples, and the comparisons of IEEE 754 are the comparisons of keys. *)
Definition sf_key (f : spec_float) : option (Z * Z * Z) :=
  match f with
  | S754_nan => None
  | S754_infinity true => Some (-2, 0, 0)%Z
  | S754_infinity false => Some (2, 0, 0)%Z
  | S754_zero _ => Some (0, 0, 0)%Z
  | S754_finite true m e => Some (-1, - e, Z.neg m)%Z
  | S754_finite false m e => Some (1, e, Z.pos m)%Z
  end.

Definition lex_compare (k1 k2 : Z * Z * Z) : comparison :=
  let '(a1, b1, c1) := k1 in
  let '(a2, b2, c2) := k2 in
  match (a1 ?= a2)%Z with
  | Eq => match (b1 ?= b2)%Z with
          | Eq => (c1 ?= c2)%Z
          | r => r
          end
  | r => r
  end.

Definition lex_lt (k1 k2 : Z * Z * Z) : Prop :=
  let '(a1, b1, c1) := k1 in
  let '(a2, b2, c2) := k2 in
  (a1 < a2 \/ (a1 = a2 /\ (b1 < b2 \/ (b1 = b2 /\ c1 < c2))))%Z.

Definition fkey (x : float) : option (Z * Z * Z) := sf_key (Prim2SF x).

(** [x < y], [x == y] and "not NaN" as propositions. *)
Definition flt (x y : float) : Prop := PrimFloat.ltb x y = true.
Definition feq (x y : float) : Prop := PrimFloat.eqb x y = true.
Definition ordered (x : float) : Prop := PrimFloat.eqb x x = true.

Lemma SFcompare_key (f1 f2 : spec_float) :
  SFcompare f1 f2 =
  match sf_key f1, sf_key f2 with
  | Some k1, Some k2 => Some (lex_compare k1 k2)
  | _, _ => None
  end.
Proof.
  destruct f1 as [[]|[]| |[] m1 e1], f2 as [[]|[]| |[] m2 e2];
    simpl; try reflexivity.
  rewrite Z.compare_opp, (Z.compare_antisym e1 e2).
  destruct (e1 ?= e2)%Z; reflexivity.
Qed.

Lemma lex_compare_cases (k1 k2 : Z * Z * Z) :
  match lex_compare k1 k2 with
  | Lt => lex_lt k1 k2
  | Eq => k1 = k2
  | Gt => lex_lt k2 k1
  end.
Proof.
  destruct k1 as [[a1 b1] c1], k2 as [[a2 b2] c2]. unfold lex_compare, lex_lt.
  destruct (Z.compare_spec a1 a2); destruct (Z.compare_spec b1 b2);
    destruct (Z.compare_spec c1 c2); subst; try reflexivity; lia.
Qed.

Lemma lex_lt_trans (k1 k2 k3 : Z * Z * Z) :
  lex_lt k1 k2 -> lex_lt k2 k3 -> lex_lt k1 k3.
Proof.
  destruct k1 as [[a1 b1] c1], k2 as [[a2 b2] c2], k3 as [[a3 b3] c3].
  unfold lex_lt. lia.
Qed.

Lemma lex_lt_irrefl (k : Z * Z * Z) : ~ lex_lt k k.
Proof. destruct k as [[a b] c]. unfold lex_lt. lia. Qed.

(** The three comparisons of two numbers, read off their keys. *)
Lemma float_compare_view (x y : float) :
  match fkey x, fkey y with
  | Some k1, Some k2 =>
      (lex_lt k1 k2 /\ PrimFloat.ltb x y = true /\ PrimFloat.eqb x y = false
       /\ PrimFloat.leb x y = true)
      \/ (k1 = k2 /\ PrimFloat.ltb x y = false /\ PrimFloat.eqb x y = true
          /\ PrimFloat.leb x y = true)
      \/ (lex_lt k2 k1 /\ PrimFloat.ltb x y = false /\ PrimFloat.eqb x y = false
          /\ PrimFloat.leb x y = false)
  | _, _ =>
      PrimFloat.ltb x y = false /\ PrimFloat.eqb x y = false
      /\ PrimFloat.leb x y = false
  end.
Proof.
  rewrite ltb_spec, eqb_spec, leb_spec. unfold SFltb, SFeqb, SFleb, fkey.
  rewrite SFcompare_key.
  destruct (sf_key (Prim2SF x)) as [k1|], (sf_key (Prim2SF y)) as [k2|];
    try (repeat split; reflexivity).
  pose proof (lex_compare_cases k1 k2) as H.
  destruct (lex_compare k1 k2);
    [right; left | left | right; right]; repeat split; trivial.
Qed.

Lemma ordered_key (x : float) : ordered x <-> exists k, fkey x = Some k.
Proof.
  unfold ordered. pose proof (float_compare_view x x) as H.
  destruct (fkey x) as [k|].
  - split; [eauto|]. intros _.
    destruct H as [(L & _)|[(_ & _ & E & _)|(L & _)]]; trivial;
      now apply lex_lt_irrefl in L.
  - destruct H as (_ & E & _). rewrite E. split; [discriminate|].
    intros [k Hk]; discriminate.
Qed.

Lemma flt_key (x y : float) :
  flt x y <-> exists k1 k2, fkey x = Some k1 /\ fkey y = Some k2 /\ lex_lt k1 k2.
Proof.
  unfold flt. pose proof (float_compare_view x y) as H.
  destruct (fkey x) as [k1|], (fkey y) as [k2|].
  - destruct H as [(L & E & _)|[(K & E & _)|(L & E & _)]]; rewrite E.
    + split; eauto.
    + split; [discriminate|]. intros (a & b & Ha & Hb & Hl).
      inversion Ha; inversion Hb; subst. now apply lex_lt_irrefl in Hl.
    + split; [discriminate|]. intros (a & b & Ha & Hb & Hl).
      inversion Ha; inversion Hb; subst.
      exfalso. exact (lex_lt_irrefl _ (lex_lt_trans _ _ _ L Hl)).
  - destruct H as (E & _); rewrite E. split; [discriminate|].
    intros (a & b & Ha & Hb & _); discriminate.
  - destruct H as (E & _); rewrite E. split; [discriminate|].
    intros (a & b & Ha & Hb & _); discriminate.
  - destruct H as (E & _); rewrite E. split; [discriminate|].
    intros (a & b & Ha & Hb & _); discriminate.
Qed.

Lemma feq_key (x y : float) :
  feq x y <-> exists k, fkey x = Some k /\ fkey y = Some k.
Proof.
  unfold feq. pose proof (float_compare_view x y) as H.
  destruct (fkey x) as [k1|], (fkey y) as [k2|].
  - destruct H as [(L & _ & E & _)|[(K & _ & E & _)|(L & _ & E & _)]]; rewrite E.
    + split; [discriminate|]. intros (k & Ha & Hb).
      inversion Ha; inversion Hb; subst. now apply lex_lt_irrefl in L.
    + subst. split; eauto.
    + split; [discriminate|]. intros (k & Ha & Hb).
      inversion Ha; inversion Hb; subst. now apply lex_lt_irrefl in L.
  - destruct H as (_ & E & _); rewrite E. split; [discriminate|].
    intros (k & Ha & Hb); discriminate.
  - destruct H as (_ & E & _); rewrite E. split; [discriminate|].
    intros (k & Ha & Hb); discriminate.
  - destruct H as (_ & E & _); rewrite E. split; [discriminate|].
    intros (k & Ha & Hb); discriminate.
Qed.

Lemma flt_trans (x y z : float) : flt x y -> flt y z -> flt x z.
Proof.
  rewrite !flt_key. intros (k1 & k2 & H1 & H2 & L) (k2' & k3 & H2' & H3 & L').
  rewrite H2 in H2'. inversion H2'; subst.
  exists k1, k3. eauto using lex_lt_trans.
Qed.

Lemma flt_ordered (x y : float) : flt x y -> ordered x /\ ordered y.
Proof.
  rewrite flt_key, !ordered_key. intros (k1 & k2 & H1 & H2 & _). eauto.
Qed.

Lemma flt_asym (x y : float) : flt x y -> ~ flt y x.
Proof.
  rewrite !flt_key. intros (k1 & k2 & H1 & H2 & L) (k2' & k1' & H2' & H1' & L').
  rewrite H2 in H2'. rewrite H1 in H1'. inversion H2'; inversion H1'; subst.
  exact (lex_lt_irrefl _ (lex_lt_trans _ _ _ L L')).
Qed.

Lemma flt_not_feq (x y : float) : flt x y -> ~ feq x y /\ ~ feq y x.
Proof.
  rewrite flt_key, !feq_key. intros (k1 & k2 & H1 & H2 & L).
  split; intros (k & Ha & Hb); rewrite Ha in *; rewrite Hb in *;
    inversion H1; inversion H2; subst; now apply lex_lt_irrefl in L.
Qed.

Lemma feq_sym (x y : float) : feq x y -> feq y x.
Proof. rewrite !feq_key. intros (k & Ha & Hb). eauto. Qed.

Lemma feq_flt_l (x y z : float) : feq x y -> flt y z -> flt x z.
Proof.
  rewrite feq_key, !flt_key. intros (k & Ha & Hb) (k1 & k2 & H1 & H2 & L).
  rewrite Hb in H1. inversion H1; subst. eauto.
Qed.

Lemma feq_flt_r (x y z : float) : feq x y -> flt z y -> flt z x.
Proof.
  rewrite feq_key, !flt_key. intros (k & Ha & Hb) (k1 & k2 & H1 & H2 & L).
  rewrite Hb in H2. inversion H2; subst. eauto.
Qed.

Lemma float_trichotomy (x y : float) :
  ordered x -> ordered y -> flt x y \/ feq x y \/ flt y x.
Proof.
  rewrite !ordered_key, !flt_key, feq_key. intros [k1 H1] [k2 H2].
  pose proof (lex_compare_cases k1 k2) as H.
  destruct (lex_compare k1 k2); subst; eauto 10.
Qed.

Lemma leb_flt_feq (x y : float) :
  PrimFloat.leb x y = true <-> flt x y \/ feq x y.
Proof.
  unfold flt, feq. pose proof (float_compare_view x y) as H.
  destruct (fkey x), (fkey y);
    repeat match goal with
           | H : _ \/ _ |- _ => destruct H
           | H : _ /\ _ |- _ => destruct H
           end;
    repeat match goal with H : _ = _ :> bool |- _ => rewrite H; clear H end;
    intuition discriminate.
Qed.

Lemma is_finite_ordered (x : float) : PrimFloat.is_finite x = true -> ordered x.
Proof.
  unfold PrimFloat.is_finite, PrimFloat.is_nan, ordered.
  destruct (PrimFloat.eqb x x); [reflexivity|discriminate].
Qed.

Lemma flt_bools (x y : float) :
  flt x y ->
  PrimFloat.ltb x y = true /\ PrimFloat.ltb y x = false
  /\ PrimFloat.eqb x y = false /\ PrimFloat.eqb y x = false
  /\ PrimFloat.leb x y = true /\ PrimFloat.leb y x = false.
Proof.
  intros L. pose proof (flt_asym _ _ L) as NA.
  destruct (flt_not_feq _ _ L) as [N1 N2].
  repeat split; try exact L; try (apply Bool.not_true_is_false; assumption).
  - apply leb_flt_feq. now left.
  - apply Bool.not_true_is_false. rewrite leb_flt_feq. tauto.
Qed.

Lemma feq_bools (x y : float) :
  feq x y ->
  PrimFloat.eqb x y = true /\ PrimFloat.ltb x y = false
  /\ PrimFloat.ltb y x = false
  /\ PrimFloat.leb x y = true /\ PrimFloat.leb y x = true.
Proof.
  intros E. pose proof (feq_sym _ _ E) as E'.
  repeat split; try exact E.
  - apply Bool.not_true_is_false. intros L. now apply flt_not_feq in L.
  - apply Bool.not_true_is_false. intros L. now apply flt_not_feq in L.
  - apply leb_flt_feq. now right.
  - apply leb_flt_feq. now right.
Qed.

Lemma feq_trans (x y z : float) : feq x y -> feq y z -> feq x z.
Proof.
  rewrite !feq_key. intros (k & Ha & Hb) (k' & Hb' & Hc).
  rewrite Hb in Hb'. inversion Hb'; subst. eauto.
Qed.

Lemma leb_trans (x y z : float) :
  PrimFloat.leb x y = true -> PrimFloat.leb y z = true ->
  PrimFloat.leb x z = true.
Proof.
  rewrite !leb_flt_feq. intros [L1|E1] [L2|E2].
  - left. exact (flt_trans _ _ _ L1 L2).
  - left. exact (feq_flt_r _ _ _ (feq_sym _ _ E2) L1).
  - left. exact (feq_flt_l _ _ _ E1 L2).
  - right. exact (feq_trans _ _ _ E1 E2).
Qed.

Lemma leb_antisym (x y : float) :
  PrimFloat.leb x y = true -> PrimFloat.leb y x = true -> feq x y.
Proof.
  rewrite !leb_flt_feq. intros [L1|E1] [L2|E2]; trivial.
  - now apply flt_asym in L1.
  - now apply feq_sym.
Qed.

(* ================================================================== *)
(** * Array reads *)

Lemma elem_Some {A : Type} (l : list A) (i : Z) :
  (0 <= i < Z.of_nat (List.length l))%Z -> exists x, elem l i = Some x.
Proof.
  intros H. unfold elem.
  destruct (Z.ltb_spec i 0); [lia|].
  destruct (nth_error l (Z.to_nat i)) eqn:E; [eauto|].
  apply nth_error_None in E. lia.
Qed.

Lemma elem_range {A : Type} (l : list A) (i : Z) (x : A) :
  elem l i = Some x -> (0 <= i < Z.of_nat (List.length l))%Z.
Proof.
  unfold elem. destruct (Z.ltb_spec i 0); [discriminate|].
  intros E. assert (Z.to_nat i < List.length l)%nat.
  { apply nth_error_Some. congruence. }
  lia.
Qed.

Lemma elem_In {A : Type} (l : list A) (i : Z) (x : A) :
  elem l i = Some x -> In x l.
Proof.
  unfold elem. destruct (i <? 0)%Z; [discriminate|]. apply nth_error_In.
Qed.

Lemma halfway_between (lo hi : Z) :
  (lo <= hi)%Z -> (lo <= (lo + hi) / 2 <= hi)%Z.
Proof.
  intros H. pose proof (Z.div_mod (lo + hi) 2 ltac:(lia)).
  pose proof (Z.mod_pos_bound (lo + hi) 2 ltac:(lia)). lia.
Qed.

(* ================================================================== *)
(** * The binary search *)

(** One unfolding of the loop. *)
Lemma findStop_loop_step (fuel : nat) (stops : list float) (input : float)
  (lo hi cur : Z) :
  findStop_loop fuel stops input lo hi cur =
  if (lo <=? hi)%Z then
    match fuel with
    | O => None
    | Datatypes.S fuel' =>
        let mid := ((lo + hi) / 2)%Z in
        if js_eq (Some input) (elem stops mid)
           || js_gt (Some input) (elem stops mid)
              && js_lt (Some input) (elem stops (mid + 1)%Z)
        then Some mid
        else if js_lt (elem stops mid) (Some input)
        then findStop_loop fuel' stops input (mid + 1)%Z hi mid
        else if js_gt (elem stops mid) (Some input)
        then findStop_loop fuel' stops input lo (mid - 1)%Z mid
        else findStop_loop fuel' stops input lo hi mid
    end
  else Some (Z.max (cur - 1) 0).
Proof. destruct fuel; reflexivity. Qed.

(** On numbers none of which is NaN, every iteration narrows the interval:
    the loop ends within [hi - lo + 1] iterations, on an index of the array. *)
Lemma findStop_loop_in_range (stops : list float) (input : float) :
  Forall ordered stops -> ordered input ->
  forall (fuel : nat) (lo hi cur : Z),
    (0 <= lo)%Z -> (hi <= Z.of_nat (List.length stops) - 1)%Z ->
    (0 <= cur <= Z.of_nat (List.length stops) - 1)%Z ->
    (hi - lo + 1 <= Z.of_nat fuel)%Z ->
    exists i, findStop_loop fuel stops input lo hi cur = Some i
              /\ (0 <= i <= Z.of_nat (List.length stops) - 1)%Z.
Proof.
  intros Hstops Hinput. rewrite Forall_forall in Hstops.
  induction fuel as [|fuel IH]; intros lo hi cur Hlo Hhi Hcur Hfuel;
    rewrite findStop_loop_step; destruct (Z.leb_spec lo hi) as [Hle|Hgt];
    try lia; try (eexists; split; [reflexivity|lia]).
  cbv zeta. pose proof (halfway_between lo hi Hle) as Hmid.
  set (mid := ((lo + hi) / 2)%Z) in *.
  destruct (elem_Some stops mid ltac:(lia)) as [v Hv]. rewrite Hv.
  pose proof (Hstops v (elem_In _ _ _ Hv)) as Hord.
  set (below_next := js_lt (Some input) (elem stops (mid + 1)%Z)).
  unfold js_gt. cbn [js_eq js_lt].
  destruct (float_trichotomy input v Hinput Hord) as [L|[E|G]].
  - destruct (flt_bools _ _ L) as (-> & -> & -> & _). cbn [orb andb].
    apply IH; lia.
  - destruct (feq_bools _ _ E) as (-> & _). cbn [orb].
    eexists; split; [reflexivity|lia].
  - destruct (flt_bools _ _ G) as (-> & _ & _ & -> & _). cbn [orb andb].
    destruct below_next; cbn [orb andb].
    + eexists; split; [reflexivity|lia].
    + apply IH; lia.
Qed.

Lemma strictly_increasing_head (a : float) (l : list float) :
  strictly_increasing (a :: l) = true ->
  forall j y, nth_error l j = Some y -> flt a y.
Proof.
  revert a. induction l as [|b l IH]; intros a H j y Hy.
  - destruct j; discriminate.
  - cbn [strictly_increasing] in H. apply andb_prop in H as [Hab Hrest].
    destruct j as [|j]; cbn in Hy.
    + inversion Hy; subst. exact Hab.
    + apply (flt_trans a b y Hab). exact (IH b Hrest j y Hy).
Qed.

Lemma strictly_increasing_tail (a : float) (l : list float) :
  strictly_increasing (a :: l) = true -> strictly_increasing l = true.
Proof.
  destruct l as [|b l]; [reflexivity|]. cbn [strictly_increasing].
  intros H. now apply andb_prop in H.
Qed.

Lemma strictly_increasing_nth (stops : list float) :
  strictly_increasing stops = true ->
  forall i j x y, (i < j)%nat ->
    nth_error stops i = Some x -> nth_error stops j = Some y -> flt x y.
Proof.
  induction stops as [|a l IH]; intros H i j x y Hij Hx Hy.
  - destruct i; discriminate.
  - destruct j as [|j]; [lia|]. destruct i as [|i]; cbn in Hx, Hy.
    + inversion Hx; subst. exact (strictly_increasing_head x l H j y Hy).
    + apply (IH (strictly_increasing_tail _ _ H) i j); trivial. lia.
Qed.

Lemma strictly_increasing_elem (stops : list float) :
  strictly_increasing stops = true ->
  forall i j x y, (i < j)%Z ->
    elem stops i = Some x -> elem stops j = Some y -> flt x y.
Proof.
  intros H i j x y Hij Hx Hy.
  pose proof (elem_range _ _ _ Hx). pose proof (elem_range _ _ _ Hy).
  unfold elem in Hx, Hy.
  destruct (Z.ltb_spec i 0); [lia|]. destruct (Z.ltb_spec j 0); [lia|].
  apply (strictly_increasing_nth stops H (Z.to_nat i) (Z.to_nat j)); trivial.
  lia.
Qed.

Lemma strictly_increasing_ordered (stops : list float) :
  strictly_increasing stops = true -> (2 <= List.length stops)%nat ->
  forall i x, elem stops i = Some x -> ordered x.
Proof.
  intros H Hn i x Hx. pose proof (elem_range _ _ _ Hx) as Hi.
  destruct (Z.eq_dec i 0) as [->|Hnz].
  - destruct (elem_Some stops 1 ltac:(lia)) as [y Hy].
    exact (proj1 (flt_ordered _ _ (strictly_increasing_elem _ H 0 1 x y ltac:(lia) Hx Hy)))%Z.
  - destruct (elem_Some stops (i - 1) ltac:(lia)) as [y Hy].
    exact (proj2 (flt_ordered _ _ (strictly_increasing_elem _ H (i - 1) i y x ltac:(lia) Hy Hx)))%Z.
Qed.

Lemma nondecreasing_head (a : float) (l : list float) :
  nondecreasing (a :: l) = true ->
  forall j y, nth_error l j = Some y -> PrimFloat.leb a y = true.
Proof.
  revert a. induction l as [|b l IH]; intros a H j y Hy.
  - destruct j; discriminate.
  - cbn [nondecreasing] in H. apply andb_prop in H as [Hab Hrest].
    destruct j as [|j]; cbn in Hy.
    + inversion Hy; subst. exact Hab.
    + apply (leb_trans a b y Hab). exact (IH b Hrest j y Hy).
Qed.

Lemma nondecreasing_tail (a : float) (l : list float) :
  nondecreasing (a :: l) = true -> nondecreasing l = true.
Proof.
  destruct l as [|b l]; [reflexivity|]. cbn [nondecreasing].
  intros H. now apply andb_prop in H.
Qed.

Lemma nondecreasing_nth (stops : list float) :
  nondecreasing stops = true ->
  forall i j x y, (i < j)%nat ->
    nth_error stops i = Some x -> nth_error stops j = Some y ->
    PrimFloat.leb x y = true.
Proof.
  induction stops as [|a l IH]; intros H i j x y Hij Hx Hy.
  - destruct i; discriminate.
  - destruct j as [|j]; [lia|]. destruct i as [|i]; cbn in Hx, Hy.
    + inversion Hx; subst. exact (nondecreasing_head x l H j y Hy).
    + apply (IH (nondecreasing_tail _ _ H) i j); trivial. lia.
Qed.

Lemma nondecreasing_elem (stops : list float) :
  nondecreasing stops = true ->
  forall i j x y, (i < j)%Z ->
    elem stops i = Some x -> elem stops j = Some y -> PrimFloat.leb x y = true.
Proof.
  intros H i j x y Hij Hx Hy.
  pose proof (elem_range _ _ _ Hx). pose proof (elem_range _ _ _ Hy).
  unfold elem in Hx, Hy.
  destruct (Z.ltb_spec i 0); [lia|]. destruct (Z.ltb_spec j 0); [lia|].
  apply (nondecreasing_nth stops H (Z.to_nat i) (Z.to_nat j)); trivial.
  lia.
Qed.

(** When a sorted stop set has its first stop at or above [input] and its
    last stop at or below it, every stop input equals [input]. *)
Lemma boundary_tests_overlap (stops : list float) (input : float) :
  nondecreasing stops = true ->
  js_le (Some input) (elem stops 0%Z) = true ->
  js_ge (Some input) (elem stops (Z.of_nat (List.length stops) - 1)%Z) = true ->
  forall i x, elem stops i = Some x -> PrimFloat.eqb x input = true.
Proof.
  intros Hsorted Hfirst Hlast i x Hx. unfold js_ge in Hlast.
  destruct (elem stops 0%Z) as [first|] eqn:Hf; [|discriminate].
  destruct (elem stops (Z.of_nat (List.length stops) - 1)%Z) as [last|] eqn:Hl;
    [|discriminate].
  cbn [js_le] in Hfirst, Hlast. pose proof (elem_range _ _ _ Hx) as Hi.
  assert (Hlo : PrimFloat.leb input x = true).
  { destruct (Z.eq_dec i 0) as [->|Hne].
    - rewrite Hf in Hx. now inversion Hx; subst.
    - apply (leb_trans _ first _ Hfirst).
      apply (nondecreasing_elem _ Hsorted 0 i); trivial. lia. }
  assert (Hhi : PrimFloat.leb x input = true).
  { destruct (Z.eq_dec i (Z.of_nat (List.length stops) - 1)) as [->|Hne].
    - rewrite Hl in Hx. now inversion Hx; subst.
    - apply (leb_trans _ last _); [|exact Hlast].
      apply (nondecreasing_elem _ Hsorted i (Z.of_nat (List.length stops) - 1));
        trivial. lia. }
  exact (leb_antisym _ _ Hhi Hlo).
Qed.

Lemma search_complete_greatest (stops : list float) (input : float) (i : Z) :
  strictly_increasing stops = true ->
  search_complete stops input i -> greatest_stop_le stops input i.
Proof.
  intros H (v & Hv & Hcase). pose proof (elem_range _ _ _ Hv) as Hi.
  split; [exact Hi|]. rewrite Hv. cbn [js_le]. split.
  - apply leb_flt_feq. destruct Hcase as [E|[L _]]; [right|left]; trivial.
    now apply feq_sym.
  - intros j Hj. destruct (elem_Some stops j ltac:(lia)) as [w Hw]. rewrite Hw. cbn [js_le].
    destruct Hcase as [E|(L & u & Hu & Lu)].
    + pose proof (strictly_increasing_elem _ H i j v w ltac:(lia) Hv Hw) as Lvw.
      pose proof (feq_flt_l _ _ _ E Lvw) as Liw.
      now destruct (flt_bools _ _ Liw) as (_ & _ & _ & _ & _ & ->).
    + assert (Liw : flt input w).
      { destruct (Z.eq_dec j (i + 1)) as [->|Hne].
        - rewrite Hu in Hw. now inversion Hw; subst.
        - apply (flt_trans _ u _ Lu).
          apply (strictly_increasing_elem _ H (i + 1) j); trivial. lia. }
      now destruct (flt_bools _ _ Liw) as (_ & _ & _ & _ & _ & ->).
Qed.

(** On strictly increasing stops, with the stop at [lo] at most [input] and
    every stop past [hi] above it, the loop returns from inside: it never
    falls through to [Math.max(currentIndex - 1, 0)]. *)
Lemma findStop_loop_sorted (stops : list float) (input : float) :
  strictly_increasing stops = true -> (2 <= List.length stops)%nat ->
  ordered input ->
  js_lt (Some input) (elem stops (Z.of_nat (List.length stops) - 1)%Z) = true ->
  forall (fuel : nat) (lo hi cur : Z),
    (0 <= lo)%Z -> (hi <= Z.of_nat (List.length stops) - 1)%Z ->
    js_le (elem stops lo) (Some input) = true ->
    (forall k y, (hi < k)%Z -> elem stops k = Some y -> flt input y) ->
    (hi - lo + 1 <= Z.of_nat fuel)%Z ->
    exists i, findStop_loop fuel stops input lo hi cur = Some i
              /\ search_complete stops input i.
Proof.
  intros Hsorted Hn Hinput Hlast.
  destruct (elem_Some stops (Z.of_nat (List.length stops) - 1) ltac:(lia))
    as [last Hl].
  rewrite Hl in Hlast. cbn [js_lt] in Hlast.
  assert (Hexit : forall lo hi, (hi < lo)%Z ->
            js_le (elem stops lo) (Some input) = true ->
            (forall k y, (hi < k)%Z -> elem stops k = Some y -> flt input y) ->
            False).
  { intros lo hi Hlt HA HB. destruct (elem stops lo) as [a|] eqn:Ha;
      [|discriminate]. cbn [js_le] in HA.
    pose proof (HB lo a Hlt Ha) as L.
    destruct (flt_bools _ _ L) as (_ & _ & _ & _ & _ & E). congruence. }
  induction fuel as [|fuel IH]; intros lo hi cur Hlo Hhi HA HB Hfuel;
    rewrite findStop_loop_step; destruct (Z.leb_spec lo hi) as [Hle|Hgt];
    try lia; try (exfalso; exact (Hexit lo hi Hgt HA HB)).
  cbv zeta. pose proof (halfway_between lo hi Hle) as Hmid.
  set (mid := ((lo + hi) / 2)%Z) in *.
  destruct (elem_Some stops mid ltac:(lia)) as [v Hv]. rewrite Hv.
  pose proof (strictly_increasing_ordered _ Hsorted Hn mid v Hv) as Hord.
  unfold js_gt. cbn [js_eq js_lt].
  destruct (float_trichotomy input v Hinput Hord) as [L|[E|G]].
  - destruct (flt_bools _ _ L) as (-> & -> & -> & _). cbn [orb andb].
    apply IH; trivial; try lia.
    intros k y Hk Hy. destruct (Z.eq_dec k mid) as [->|Hne].
    + rewrite Hv in Hy. now inversion Hy; subst.
    + apply (flt_trans _ v _ L).
      apply (strictly_increasing_elem _ Hsorted mid k); trivial. lia.
  - destruct (feq_bools _ _ E) as (-> & _). cbn [orb].
    eexists; split; [reflexivity|]. exists v. auto.
  - destruct (flt_bools _ _ G) as (-> & _ & _ & -> & _). cbn [orb andb].
    destruct (elem stops (mid + 1)%Z) as [u|] eqn:Hu.
    + cbn [js_lt].
      pose proof (strictly_increasing_ordered _ Hsorted Hn _ u Hu) as Hordu.
      destruct (float_trichotomy input u Hinput Hordu) as [Lu|[Eu|Gu]].
      * destruct (flt_bools _ _ Lu) as (-> & _). cbn [orb andb].
        eexists; split; [reflexivity|]. exists v. split; [exact Hv|].
        right. split; [exact G|]. exists u. auto.
      * destruct (feq_bools _ _ Eu) as (_ & -> & _). cbn [orb andb].
        pose proof (elem_range _ _ _ Hu).
        apply IH; trivial; try lia.
        rewrite Hu. cbn [js_le]. apply leb_flt_feq. right. now apply feq_sym.
      * destruct (flt_bools _ _ Gu) as (_ & -> & _). cbn [orb andb].
        pose proof (elem_range _ _ _ Hu).
        apply IH; trivial; try lia.
        rewrite Hu. cbn [js_le]. apply leb_flt_feq. now left.
    + exfalso. assert (mid = Z.of_nat (List.length stops) - 1)%Z as Hm.
      { pose proof (elem_range _ _ _ Hv).
        destruct (Z_lt_le_dec (mid + 1) (Z.of_nat (List.length stops))) as [Hin|]; [|lia].
        destruct (elem_Some stops (mid + 1) ltac:(lia)) as [u' Hu']. congruence. }
      rewrite Hm in Hv. rewrite Hl in Hv. inversion Hv; subst.
      exact (flt_asym _ _ G Hlast).
Qed.

(** C9. For every array [stops] of finite numbers of length [n >= 1] and
    every finite [input], [findStopLessThanOrEqualTo(stops, input)]
    terminates (any fuel of at least [n] iterations is enough) and returns
    an index between [0] and [n - 1]. *)
Theorem findStop_terminates_in_range (stops : list float) (input : float)
  (fuel : nat) :
  (1 <= List.length stops)%nat ->
  Forall (fun x => PrimFloat.is_finite x = true) stops ->
  PrimFloat.is_finite input = true ->
  (List.length stops <= fuel)%nat ->
  exists i, findStopLessThanOrEqualTo fuel stops input = Some i
            /\ (0 <= i <= Z.of_nat (List.length stops) - 1)%Z.
Proof.
  intros Hn Hfinite Hinput Hfuel. unfold findStopLessThanOrEqualTo.
  apply findStop_loop_in_range; try lia.
  - eapply Forall_impl; [|exact Hfinite]. exact is_finite_ordered.
  - now apply is_finite_ordered.
Qed.

Lemma findStop_terminates_in_range_witness :
  exists i, findStopLessThanOrEqualTo 3 [0; 10; 20]%float 15%float = Some i
            /\ (0 <= i <= 2)%Z.
Proof.
  apply (findStop_terminates_in_range [0; 10; 20]%float 15%float 3).
  - simpl; lia.
  - repeat constructor.
  - reflexivity.
  - simpl; lia.
Defined.

Lemma nan_unordered (x : float) :
  PrimFloat.eqb x PrimFloat.nan = false
  /\ PrimFloat.ltb x PrimFloat.nan = false
  /\ PrimFloat.ltb PrimFloat.nan x = false.
Proof.
  assert (Hnan : fkey PrimFloat.nan = None).
  { unfold fkey.
    now rewrite (Prim2SF_SF2Prim S754_nan eq_refl
                 : Prim2SF PrimFloat.nan = S754_nan). }
  pose proof (float_compare_view x PrimFloat.nan) as H1.
  pose proof (float_compare_view PrimFloat.nan x) as H2.
  rewrite Hnan in H1, H2.
  destruct (fkey x); destruct H1 as (-> & -> & _); destruct H2 as (-> & _);
    auto.
Qed.

(** The hypothesis of C9 is needed: on a stop that is NaN no test of the
    loop applies, the interval never narrows, and no amount of fuel makes the
    search return. *)
Lemma findStop_NaN_diverges (fuel : nat) (input : float) :
  findStopLessThanOrEqualTo fuel [PrimFloat.nan] input = None.
Proof.
  unfold findStopLessThanOrEqualTo.
  change (Z.of_nat (List.length [PrimFloat.nan]) - 1)%Z with 0%Z.
  generalize 0%Z at 3. induction fuel as [|fuel IH]; intros cur.
  - reflexivity.
  - rewrite findStop_loop_step. cbv zeta.
    change ((0 + 0) / 2)%Z with 0%Z.
    change (elem [PrimFloat.nan] 0%Z) with (Some PrimFloat.nan).
    change (elem [PrimFloat.nan] (0 + 1)%Z) with (@None float).
    unfold js_gt. cbn [Z.leb Z.compare js_eq js_lt].
    destruct (nan_unordered input) as (-> & -> & ->). cbn [orb andb].
    apply IH.
Qed.

(* ================================================================== *)
(** * evaluateCurve *)

Section CurveProperties.

Context {host : Host} {S : Type}.

Lemma as_Number (x : float) (name : option string) :
  as_ (Num x) "Number" name = Ok (Num x).
Proof. reflexivity. Qed.

(** After the assertion on [input], which a number always passes. *)
Lemma evaluateCurve_unfold (fuel : nat) (input : float) (stopInputs : list float)
  (stopOutputs : list (@thunk S)) (interpolation : InterpolationType)
  (resultType : string) (s : S) :
  evaluateCurve fuel input stopInputs stopOutputs interpolation resultType s =
  let stopCount := Z.of_nat (List.length stopInputs) in
  if (stopCount =? 1)%Z then call stopOutputs 0%Z s
  else if js_le (Some input) (elem stopInputs 0%Z) then call stopOutputs 0%Z s
  else if js_ge (Some input) (elem stopInputs (stopCount - 1)%Z)
  then call stopOutputs (stopCount - 1)%Z s
  else
    match findStopLessThanOrEqualTo fuel stopInputs input with
    | None => Diverges
    | Some index =>
        if String.eqb (interpolation_name interpolation) "step"
        then call stopOutputs index s
        else
          let base :=
            if String.eqb (interpolation_name interpolation) "exponential"
            then interpolation_base interpolation
            else Num 1%float in
          let t := interpolationFactor (Num input) base
                     (elemv stopInputs index) (elemv stopInputs (index + 1)%Z) in
          bind (call stopOutputs index) (fun outputLower =>
          bind (call stopOutputs (index + 1)%Z) (fun outputUpper =>
            if String.eqb resultType "color" then
              bind (lift (member outputLower "value")) (fun lower =>
              bind (lift (member outputUpper "value")) (fun upper =>
              bind (lift (interpolate_call "color" lower upper t)) (fun c =>
              ret (PlainObject [("type", Str "Color"); ("value", c)]))))
            else if String.eqb resultType "array" then
              bind (lift (member outputLower "type")) (fun arrayType =>
              bind (lift (member outputLower "items")) (fun lower =>
              bind (lift (member outputUpper "items")) (fun upper =>
              bind (lift (interpolate_call "array" lower upper t)) (fun items =>
              ret (array arrayType items)))))
            else lift (interpolate_call resultType outputLower outputUpper t))) s
    end.
Proof.
  unfold evaluateCurve. rewrite as_Number. unfold bind at 1, lift at 1, ret at 1.
  cbv zeta.
  destruct (Z.of_nat (List.length stopInputs) =? 1)%Z; [reflexivity|].
  destruct (js_le (Some input) (elem stopInputs 0%Z)); [reflexivity|].
  destruct (js_ge (Some input) (elem stopInputs _)); [reflexivity|].
  destruct (findStopLessThanOrEqualTo fuel stopInputs input); [|reflexivity].
  destruct (String.eqb (interpolation_name interpolation) "step"); reflexivity.
Qed.

(** Strictly inside a strictly increasing stop set, the search returns the
    greatest index whose stop is at most [input], and neither boundary
    test of [evaluateCurve] applies. *)
Lemma findStop_inside (fuel : nat) (input : float) (stops : list float) :
  (2 <= List.length stops)%nat ->
  strictly_increasing stops = true ->
  js_lt (elem stops 0%Z) (Some input) = true ->
  js_lt (Some input) (elem stops (Z.of_nat (List.length stops) - 1)%Z) = true ->
  (List.length stops <= fuel)%nat ->
  (Z.of_nat (List.length stops) =? 1)%Z = false
  /\ js_le (Some input) (elem stops 0%Z) = false
  /\ js_ge (Some input) (elem stops (Z.of_nat (List.length stops) - 1)%Z) = false
  /\ exists i, findStopLessThanOrEqualTo fuel stops input = Some i
               /\ search_complete stops input i.
Proof.
  intros Hn Hsorted Hfirst Hlast Hfuel.
  destruct (elem stops 0%Z) as [first|] eqn:Hf; [|discriminate].
  destruct (elem stops (Z.of_nat (List.length stops) - 1)%Z) as [last|] eqn:Hl;
    [|discriminate].
  cbn [js_lt] in Hfirst, Hlast.
  destruct (flt_bools _ _ Hfirst) as (_ & _ & _ & _ & Hle & Hnle).
  destruct (flt_bools _ _ Hlast) as (_ & _ & _ & _ & _ & Hnge).
  split; [apply Z.eqb_neq; lia|].
  split; [exact Hnle|]. split; [exact Hnge|].
  unfold findStopLessThanOrEqualTo.
  apply findStop_loop_sorted; trivial; try lia.
  - exact (proj2 (flt_ordered _ _ Hfirst)).
  - rewrite Hl. exact Hlast.
  - rewrite Hf. exact Hle.
  - intros k y Hk Hy. apply elem_range in Hy. lia.
Qed.

(** C2. For a strictly increasing sequence of at least two stop inputs, Step
    interpolation and an input strictly between the first and the last stop
    input, [evaluateCurve] returns exactly what [stopOutputs[i]()] does,
    where [i] is the greatest index with [stopInputs[i] <= input]: the search
    returns (its loop needs at most as many iterations as there are stops)
    and no blend is computed. *)
Theorem evaluateCurve_step_greatest_stop (fuel : nat) (input : float)
  (stopInputs : list float) (stopOutputs : list (@thunk S))
  (interpolation : InterpolationType) (resultType : string) (s : S) :
  (2 <= List.length stopInputs)%nat ->
  strictly_increasing stopInputs = true ->
  interpolation_name interpolation = "step" ->
  js_lt (elem stopInputs 0%Z) (Some input) = true ->
  js_lt (Some input)
        (elem stopInputs (Z.of_nat (List.length stopInputs) - 1)%Z) = true ->
  (List.length stopInputs <= fuel)%nat ->
  exists i,
    greatest_stop_le stopInputs input i
    /\ findStopLessThanOrEqualTo fuel stopInputs input = Some i
    /\ evaluateCurve fuel input stopInputs stopOutputs interpolation resultType s
       = call stopOutputs i s.
Proof.
  intros Hn Hsorted Hstep Hfirst Hlast Hfuel.
  destruct (findStop_inside fuel input stopInputs Hn Hsorted Hfirst Hlast Hfuel)
    as (H1 & H2 & H3 & i & Hi & Hdone).
  exists i. split; [now apply search_complete_greatest|]. split; [exact Hi|].
  rewrite evaluateCurve_unfold. cbv zeta.
  rewrite H1, H2, H3, Hi, Hstep. reflexivity.
Qed.

(** C3, amended. For every stop set sorted by input, every interpolation
    kind and every result type: with exactly one stop, or an input at or
    below the first stop input, [evaluateCurve] is the call of the first
    stop's output thunk; with an input at or above the last stop input it is
    the call of the last stop's output thunk, unless the test on the first
    stop applies as well, which it does only when every stop input equals
    the input, and then the call is that of the first stop's output thunk.
    Nothing is interpolated in any of these cases. *)
Theorem evaluateCurve_boundary (fuel : nat) (input : float)
  (stopInputs : list float) (stopOutputs : list (@thunk S))
  (interpolation : InterpolationType) (resultType : string) (s : S) :
  nondecreasing stopInputs = true ->
  let stopCount := Z.of_nat (List.length stopInputs) in
  (stopCount = 1%Z \/ js_le (Some input) (elem stopInputs 0%Z) = true ->
   evaluateCurve fuel input stopInputs stopOutputs interpolation resultType s
   = call stopOutputs 0%Z s)
  /\ (js_ge (Some input) (elem stopInputs (stopCount - 1)%Z) = true ->
      evaluateCurve fuel input stopInputs stopOutputs interpolation resultType s
      = call stopOutputs
          (if js_le (Some input) (elem stopInputs 0%Z) then 0%Z
           else (stopCount - 1)%Z) s)
  /\ (js_le (Some input) (elem stopInputs 0%Z) = true ->
      js_ge (Some input) (elem stopInputs (stopCount - 1)%Z) = true ->
      forall i x, elem stopInputs i = Some x -> PrimFloat.eqb x input = true).
Proof.
  intros Hsorted stopCount. split; [|split].
  - intros H. rewrite evaluateCurve_unfold. cbv zeta. fold stopCount.
    destruct (Z.eqb_spec stopCount 1); [reflexivity|].
    destruct H as [H|H]; [contradiction|]. now rewrite H.
  - intros H. rewrite evaluateCurve_unfold. cbv zeta. fold stopCount.
    destruct (Z.eqb_spec stopCount 1) as [E|E].
    + rewrite E. cbn [Z.sub Z.add Z.opp Z.pos_sub].
      now destruct (js_le (Some input) (elem stopInputs 0%Z)).
    + destruct (js_le (Some input) (elem stopInputs 0%Z)); [reflexivity|].
      now rewrite H.
  - intros Hfirst Hlast. now apply boundary_tests_overlap.
Qed.

Lemma member_ArrayValue (arrayType : string) (items : value) (key : string) :
  member (ArrayValue arrayType items) key
  = Ok (prop (ArrayValue arrayType items) key).
Proof. reflexivity. Qed.

Lemma prop_ArrayValue_type (arrayType : string) (items : value) :
  prop (ArrayValue arrayType items) "type" = Str "Array".
Proof. reflexivity. Qed.

Lemma prop_ArrayValue_items (arrayType : string) (items : value) :
  prop (ArrayValue arrayType items) "items" = items.
Proof. reflexivity. Qed.

Lemma greatest_stop_le_unique (stops : list float) (input : float) (i j : Z) :
  greatest_stop_le stops input i -> greatest_stop_le stops input j -> i = j.
Proof.
  intros (Hi & Hle_i & Hmax_i) (Hj & Hle_j & Hmax_j).
  destruct (Z.lt_trichotomy i j) as [H|[H|H]]; trivial.
  - rewrite (Hmax_i j ltac:(lia)) in Hle_j. discriminate.
  - rewrite (Hmax_j i ltac:(lia)) in Hle_i. discriminate.
Qed.

(** C4 (what the code does). With result type 'array', an interpolation
    other than Step and an input strictly inside the stops, where [i] is the
    greatest index with [stopInputs[i] <= input]: when the two bracketing
    thunks return Array values and [interpolate.array] blends their items at
    the progress [t] into [items], [evaluateCurve] returns
    [{type: 'Array', arrayType: 'Array', items}]. The [arrayType] of the
    result is the [type] tag of the lower output, which is 'Array' for every
    Array value, and not its [arrayType]: [typeOf] reports 'Array' for the
    result whatever element type the lower output had. *)
Theorem evaluateCurve_array_drops_element_type (fuel : nat) (input : float)
  (stopInputs : list float) (stopOutputs : list (@thunk S))
  (interpolation : InterpolationType) (s s1 s2 : S) (i : Z)
  (lowerType upperType : string) (lowerItems upperItems items : value) :
  (2 <= List.length stopInputs)%nat ->
  strictly_increasing stopInputs = true ->
  js_lt (elem stopInputs 0%Z) (Some input) = true ->
  js_lt (Some input)
        (elem stopInputs (Z.of_nat (List.length stopInputs) - 1)%Z) = true ->
  (List.length stopInputs <= fuel)%nat ->
  interpolation_name interpolation <> "step" ->
  greatest_stop_le stopInputs input i ->
  call stopOutputs i s = Returns (ArrayValue lowerType lowerItems) s1 ->
  call stopOutputs (i + 1)%Z s1 = Returns (ArrayValue upperType upperItems) s2 ->
  interpolate_call "array" lowerItems upperItems
    (interpolationFactor (Num input)
       (if String.eqb (interpolation_name interpolation) "exponential"
        then interpolation_base interpolation else Num 1%float)
       (elemv stopInputs i) (elemv stopInputs (i + 1)%Z)) = Ok items ->
  evaluateCurve fuel input stopInputs stopOutputs interpolation "array" s
  = Returns (ArrayValue "Array" items) s2
  /\ typeOf (ArrayValue "Array" items) = Str "Array"
  /\ typeOf (ArrayValue lowerType lowerItems) = Str lowerType.
Proof.
  intros Hn Hsorted Hfirst Hlast Hfuel Hkind Hi Hlower Hupper Hblend.
  destruct (findStop_inside fuel input stopInputs Hn Hsorted Hfirst Hlast Hfuel)
    as (H1 & H2 & H3 & i' & Hi' & Hdone).
  assert (i' = i) as ->.
  { eapply greatest_stop_le_unique; [|exact Hi].
    now apply search_complete_greatest. }
  split; [|split; reflexivity].
  rewrite evaluateCurve_unfold. cbv zeta. rewrite H1, H2, H3, Hi'.
  apply String.eqb_neq in Hkind. rewrite Hkind.
  unfold bind at 1. rewrite Hlower. unfold bind at 1. rewrite Hupper.
  change (String.eqb "array" "color") with false.
  change (String.eqb "array" "array") with true. cbv iota.
  rewrite !member_ArrayValue, prop_ArrayValue_type, !prop_ArrayValue_items.
  unfold bind, lift, ret. rewrite Hblend. reflexivity.
Qed.

End CurveProperties.

(* ================================================================== *)
(** * coalesce *)

Section CoalesceProperties.

Context {S : Type}.

(** Thunks that return null or throw, and are not the last, are passed
    over. *)
Lemma coalesce_skip (before rest : list (@thunk S)) (s s1 : S) :
  skipped before s s1 -> rest <> [] ->
  coalesce (before ++ rest) s = coalesce rest s1.
Proof.
  intros Hskip Hrest. induction Hskip as [s|f fs s s1 s2 Hf _ IH|f fs e s s1 s2 Hf _ IH].
  - reflexivity.
  - cbn [app coalesce]. rewrite Hf. cbn [is_null negb]. exact IH.
  - cbn [app coalesce]. rewrite Hf.
    destruct (fs ++ rest)%list eqn:E; [|exact IH].
    apply app_eq_nil in E. now destruct E.
Qed.

(** C1. [coalesce(t1, ..., tn)] evaluates the thunks in order. Once the
    thunks of [before] have each returned null or thrown, leaving the state
    [s1]: a next thunk that returns a value other than null decides the
    result, and nothing after it is evaluated (the state is the one that
    thunk left, whatever [after] holds); a next thunk that is not the last
    and throws is passed over exactly as one that returns null; a last thunk
    that throws propagates its failure; a last thunk that returns null makes
    the result null. With no thunk at all the result is null. *)
Theorem coalesce_first_non_null (before after : list (@thunk S)) (s s1 : S) :
  skipped before s s1 ->
  coalesce [] s = Returns Null s
  /\ (forall (f : @thunk S) (v : value) (s2 : S),
         f s1 = Returns v s2 -> v <> Null ->
         coalesce (before ++ f :: after) s = Returns v s2)
  /\ (forall (f : @thunk S) (s2 : S),
         after <> [] ->
         f s1 = Returns Null s2 \/ (exists e, f s1 = Throws e s2) ->
         coalesce (before ++ f :: after) s = coalesce after s2)
  /\ (forall (f : @thunk S) (e : exn) (s2 : S),
         f s1 = Throws e s2 ->
         coalesce (before ++ [f]) s = Throws e s2)
  /\ (forall (f : @thunk S) (s2 : S),
         f s1 = Returns Null s2 ->
         coalesce (before ++ [f]) s = Returns Null s2).
Proof.
  intros Hskip. split; [reflexivity|]. repeat split.
  - intros f v s2 Hf Hv. rewrite (coalesce_skip before (f :: after) s s1 Hskip);
      [|discriminate].
    cbn [coalesce]. rewrite Hf. destruct v; try reflexivity. contradiction.
  - intros f s2 Hafter Hf.
    rewrite (coalesce_skip before (f :: after) s s1 Hskip); [|discriminate].
    cbn [coalesce]. destruct Hf as [Hf|[e Hf]]; rewrite Hf; [reflexivity|].
    destruct after; [contradiction|reflexivity].
  - intros f e s2 Hf.
    rewrite (coalesce_skip before [f] s s1 Hskip); [|discriminate].
    cbn [coalesce]. now rewrite Hf.
  - intros f s2 Hf.
    rewrite (coalesce_skip before [f] s s1 Hskip); [|discriminate].
    cbn [coalesce]. now rewrite Hf.
Qed.

End CoalesceProperties.

(** [coalesce(failing, () => 5, () => 7)] is 5, and the third thunk is not
    evaluated; [coalesce(failing)] throws; [coalesce()] is null. *)
Lemma coalesce_first_non_null_witness :
  skipped [Sample.failing "a" "boom"] [] ["a"]
  /\ coalesce [Sample.failing "a" "boom"; Sample.returning "b" (Num 5);
               Sample.returning "c" (Num 7)] []
     = Returns (Num 5) ["a"; "b"]
  /\ coalesce [Sample.failing "a" "boom"] [] = Throws (RuntimeError "boom") ["a"]
  /\ coalesce (S := Sample.log) [] [] = Returns Null [].
Proof.
  assert (H : skipped [Sample.failing "a" "boom"] [] ["a"]).
  { eapply skipped_throw; [reflexivity|constructor]. }
  split; [exact H|]. split; [|split].
  - apply (proj1 (proj2 (coalesce_first_non_null
                           [Sample.failing "a" "boom"]
                           [Sample.returning "c" (Num 7)] [] ["a"] H))
             (Sample.returning "b" (Num 5)) (Num 5) ["a"; "b"]).
    + reflexivity.
    + discriminate.
  - apply (proj1 (proj2 (proj2 (proj2 (coalesce_first_non_null
                           [] [] [] [] (skipped_nil [])))))
             (Sample.failing "a" "boom") (RuntimeError "boom") ["a"]).
    reflexivity.
  - exact (proj1 (coalesce_first_non_null [] [] [] [] (skipped_nil []))).
Defined.

(* ================================================================== *)
(** * Values: assertions, access, wrapping *)

Section ValueProperties.

Context {host : Host}.

(** C6 (what the code does). For an Object value and a key that is not
    among its entries (nor is 'hasOwnProperty' one of them), [get] without a
    name fails with a "Property not found" message, and the keys the message
    lists are those of the wrapper, [type] and [value], whatever the entries
    are: the message is built from [Object.keys(obj)], not from
    [Object.keys(obj.value)]. *)
Theorem get_missing_lists_wrapper_keys (entries : list (string * value))
  (key : string) :
  lookup entries key = None ->
  lookup entries "hasOwnProperty" = None ->
  get (object (PlainObject entries)) key None
  = Err (RuntimeError ("Property '" ++ key
                       ++ "' not found in object with keys: [type, value]")).
Proof.
  intros Hkey Hmethod. unfold get, has.
  change (ensure (object (PlainObject entries)) _) with (Ok (A := value) (Bool true)).
  change (as_ (object (PlainObject entries)) "Object" None)
    with (Ok (object (PlainObject entries))).
  cbn [rbind]. change (member (object (PlainObject entries)) "value")
    with (Ok (PlainObject entries)).
  cbn [rbind hasOwnProperty own_property]. rewrite Hmethod, Hkey. reflexivity.
Qed.

(** C7. [as(v, 'Array')] returns [v] for an Array value of any element-type
    variant, and for a number it fails with a RuntimeError whose message
    names the actual type, Number. *)
Theorem as_Array_accepts_every_variant :
  (forall (arrayType : string) (items : value) (name : option string),
      In arrayType array_type_variants ->
      as_ (ArrayValue arrayType items) "Array" name
      = Ok (ArrayValue arrayType items))
  /\ (forall (x : float) (name : option string),
         as_ (Num x) "Array" name
         = Err (RuntimeError ("Expected " ++ name_or name "value"
                              ++ " to be an Array, but found Number instead."))).
Proof.
  split.
  - intros arrayType items name Hin. unfold array_type_variants in Hin.
    cbn [In] in Hin.
    destruct Hin as [<-|[<-|[<-|[<-|[]]]]]; reflexivity.
  - intros x name. reflexivity.
Qed.

(** C8. Unwrapping what [object] or [array] (with no explicit type) has
    wrapped gives back the wrapped data. *)
Theorem unwrap_wrap_roundtrip (m items : value) :
  unwrap (object m) = Ok m /\ unwrap (array Null items) = Ok items.
Proof. split; reflexivity. Qed.


(** C10. [rgba(r, g, b, a)] is the Color whose channel tuple (what
    [unwrap] gives) is [r / 255, g / 255, b / 255, a], the alpha as given and
    not divided; with [a] omitted the alpha is 1. *)
Theorem rgba_channels (r g b : float) :
  (forall a : float,
      rgba r g b (Num a) = ColorValue (r / 255) (g / 255) (b / 255) (Num a)
      /\ unwrap (rgba r g b (Num a))
         = Ok (PlainArray [Num (r / 255); Num (g / 255); Num (b / 255); Num a]))
  /\ rgba r g b Undefined = ColorValue (r / 255) (g / 255) (b / 255) (Num 1)
  /\ unwrap (rgba r g b Undefined)
     = Ok (PlainArray [Num (r / 255); Num (g / 255); Num (b / 255); Num 1])
  /\ forall a : value, typeOf (rgba r g b a) = Str "Color".
Proof. repeat split; reflexivity. Qed.

End ValueProperties.

(* ================================================================== *)
(** * createFunction *)

Section BuilderProperties.

Context {host : Host} {S : Type} {collab : Collaborators host S}.

(** C5. When the compiler reports failure on the expression and expected
    type that [createFunction] derives from its input, [createFunction]
    throws one Error, whose message joins the rendering ['<key>: <error>'] of
    every reported pair with [', ']; it returns no compiled function. *)
Theorem createFunction_compile_failure (parameters propertySpec expr : value)
  (expectedType : tyref Ty) (errors : list CompileError) :
  normalize parameters propertySpec = Ok expr ->
  getExpectedType propertySpec = Ok expectedType ->
  compileExpression expr expectedType = CompileFailure errors ->
  snd (createFunction parameters propertySpec)
  = Err (Error (join ", " (map render_error errors))).
Proof.
  intros Hexpr Htype Hcompile. unfold createFunction.
  rewrite Hexpr, Htype, Hcompile. reflexivity.
Qed.

End BuilderProperties.

(* ================================================================== *)
(** * The properties on the sample host *)

(** Step interpolation at 15 over the stops 0, 10, 20 calls the second
    output and nothing else. *)
Lemma evaluateCurve_step_greatest_stop_witness :
  exists i,
    greatest_stop_le [0; 10; 20]%float 15%float i
    /\ findStopLessThanOrEqualTo 3 [0; 10; 20]%float 15%float = Some i
    /\ evaluateCurve (host := Sample.host) 3 15%float [0; 10; 20]%float
         Sample.numbers Sample.step "number" []
       = call Sample.numbers i [].
Proof.
  apply evaluateCurve_step_greatest_stop.
  - simpl; lia.
  - reflexivity.
  - reflexivity.
  - reflexivity.
  - reflexivity.
  - simpl; lia.
Defined.

Example evaluateCurve_step_at_15 :
  evaluateCurve (host := Sample.host) 3 15%float [0; 10; 20]%float
    Sample.numbers Sample.step "number" []
  = Returns (Num 2) ["b"].
Proof. reflexivity. Qed.

(** Below the first stop and above the last one, linear interpolation
    returns the boundary outputs. *)
Lemma evaluateCurve_boundary_witness :
  evaluateCurve (host := Sample.host) 3 (-5)%float [0; 10; 20]%float
    Sample.numbers Sample.linear "number" []
  = Returns (Num 1) ["a"]
  /\ evaluateCurve (host := Sample.host) 3 25%float [0; 10; 20]%float
       Sample.numbers Sample.linear "number" []
     = Returns (Num 3) ["c"].
Proof.
  split.
  - exact (eq_trans
             (proj1 (evaluateCurve_boundary (host := Sample.host) 3 (-5)%float
                       [0; 10; 20]%float Sample.numbers Sample.linear "number" []
                       eq_refl)
                    (or_intror eq_refl))
             eq_refl).
  - exact (eq_trans
             (proj1 (proj2 (evaluateCurve_boundary (host := Sample.host) 3 25%float
                              [0; 10; 20]%float Sample.numbers Sample.linear
                              "number" [] eq_refl))
                    eq_refl)
             eq_refl).
Defined.

(** C3 as the claim states it fails where the two boundary tests overlap.
    The stop inputs 5 and 5 are sorted and the input 5 is at or above the
    last of them, yet [evaluateCurve] returns the output of the first stop,
    the test on the first stop (line 150) coming before the one on the last
    (line 151), and not the output of the last stop. *)
Lemma evaluateCurve_boundary_counterexample :
  nondecreasing [5; 5]%float = true
  /\ js_ge (Some 5%float) (elem [5; 5]%float 1%Z) = true
  /\ evaluateCurve (host := Sample.host) 2 5%float [5; 5]%float
       [Sample.returning "first" (Num 1); Sample.returning "last" (Num 2)]
       Sample.linear "number" []
     = Returns (Num 1) ["first"]
  /\ call [Sample.returning "first" (Num 1); Sample.returning "last" (Num 2)]
          1%Z []
     = Returns (Num 2) ["last"]
  /\ evaluateCurve (host := Sample.host) 2 5%float [5; 5]%float
       [Sample.returning "first" (Num 1); Sample.returning "last" (Num 2)]
       Sample.linear "number" []
     <> call [Sample.returning "first" (Num 1);
              Sample.returning "last" (Num 2)] 1%Z [].
Proof.
  repeat (split; [reflexivity|]). discriminate.
Qed.

(** Halfway between two stops whose outputs are of type Array<number>, the
    result has the blended items and reports the type Array. *)
Lemma evaluateCurve_array_drops_element_type_witness :
  evaluateCurve (host := Sample.host) 2 5%float [0; 10]%float
    Sample.arrays Sample.linear "array" []
  = Returns (ArrayValue "Array" (PlainArray [Num 5; Num 10])) ["lower"; "upper"]
  /\ typeOf (ArrayValue "Array" (PlainArray [Num 5; Num 10])) = Str "Array"
  /\ typeOf (ArrayValue "Array<number>" (PlainArray [Num 0; Num 0]))
     = Str "Array<number>".
Proof.
  apply (evaluateCurve_array_drops_element_type (host := Sample.host)
           2 5%float [0; 10]%float Sample.arrays Sample.linear
           [] ["lower"] ["lower"; "upper"] 0%Z
           "Array<number>" "Array<number>"
           (PlainArray [Num 0; Num 0]) (PlainArray [Num 10; Num 20])
           (PlainArray [Num 5; Num 10])).
  - simpl; lia.
  - reflexivity.
  - reflexivity.
  - reflexivity.
  - simpl; lia.
  - discriminate.
  - split; [simpl; lia|]. split; [reflexivity|].
    intros j Hj. assert (j = 1%Z) as -> by (simpl in Hj; lia). reflexivity.
  - reflexivity.
  - reflexivity.
  - reflexivity.
Defined.

(** The message for a missing key of [{a: 1}] lists [type, value], and so
    is not the message that lists the entry key [a]. *)
Lemma get_missing_lists_wrapper_keys_witness :
  get (host := Sample.host) (object (PlainObject [("a", Num 1)])) "b" None
  = Err (RuntimeError "Property 'b' not found in object with keys: [type, value]")
  /\ get (host := Sample.host) (object (PlainObject [("a", Num 1)])) "b" None
     <> Err (RuntimeError "Property 'b' not found in object with keys: [a]").
Proof.
  assert (H : get (host := Sample.host) (object (PlainObject [("a", Num 1)])) "b" None
              = Err (RuntimeError
                       "Property 'b' not found in object with keys: [type, value]")).
  { apply (get_missing_lists_wrapper_keys (host := Sample.host)
             [("a", Num 1)] "b"); reflexivity. }
  split; [exact H|]. rewrite H. discriminate.
Defined.

Lemma as_Array_accepts_every_variant_witness :
  as_ (host := Sample.host) (ArrayValue "Array<number>" (PlainArray [Num 1]))
    "Array" None
  = Ok (ArrayValue "Array<number>" (PlainArray [Num 1]))
  /\ as_ (host := Sample.host) (Num 3) "Array" None
     = Err (RuntimeError "Expected value to be an Array, but found Number instead.").
Proof.
  split.
  - apply (proj1 (as_Array_accepts_every_variant (host := Sample.host))).
    right; right; left; reflexivity.
  - apply (proj2 (as_Array_accepts_every_variant (host := Sample.host))).
Defined.

(** A string against a number property: the sample compiler reports two
    errors, and [createFunction] throws their renderings joined. *)
Lemma createFunction_compile_failure_witness :
  snd (createFunction (collab := Sample.collaborators)
         (Str "red") (PlainObject [("type", Str "number")]))
  = Err (Error ": Expected number but found string instead., [1]: Unknown expression.").
Proof.
  apply (createFunction_compile_failure (collab := Sample.collaborators)
           (Str "red") (PlainObject [("type", Str "number")]) (Str "red")
           (TyRef "Number")
           [{| err_key := "";
               err_error := "Expected number but found string instead." |};
            {| err_key := "[1]"; err_error := "Unknown expression." |}]);
    reflexivity.
Defined.

(* ================================================================== *)
(** * Property access: has and get together *)

Section AccessProperties.

Context {host : Host}.

(** The assertion returns its argument or fails. *)
Lemma as_returns_argument (v v' : value) (expectedType : string)
  (name : option string) :
  as_ v expectedType name = Ok v' -> v' = v.
Proof.
  unfold as_. destruct (String.eqb expectedType "Array");
    (destruct (toStr (typeOf v)); cbn [rbind]; [|discriminate]);
    match goal with |- (_ <- ?c ;; _) = _ -> _ => destruct c end;
    cbn [rbind]; congruence.
Qed.

(** What a successful [has] has established. *)
Lemma has_inversion (obj h : value) (key : string) (name : option string) :
  has obj key name = Ok h ->
  truthy obj = true
  /\ exists v b, member obj "value" = Ok v
                 /\ hasOwnProperty v key = Ok b /\ h = Bool b.
Proof.
  unfold has, ensure. destruct (truthy obj); [|discriminate]. cbn [negb rbind].
  destruct (as_ obj "Object" name) as [o|e] eqn:Has; [|discriminate].
  apply as_returns_argument in Has. subst o. cbn [rbind].
  destruct (member obj "value") as [v|e] eqn:Hv; [|discriminate]. cbn [rbind].
  destruct (hasOwnProperty v key) as [b|e] eqn:Hb; [|discriminate]. cbn [rbind].
  intros E. inversion E. split; [reflexivity|]. exists v, b. auto.
Qed.

Lemma Object_keys_truthy (obj : value) :
  truthy obj = true -> exists keys, Object_keys obj = Ok keys.
Proof. destruct obj; cbn; try discriminate; eauto. Qed.

Lemma hasOwnProperty_member (v : value) (key : string) (b : bool) :
  hasOwnProperty v key = Ok b -> member v key = Ok (prop v key).
Proof. destruct v; try discriminate; reflexivity. Qed.

(** [get] succeeds exactly when [has] returns true. A failure of [has] is
    the failure of [get]; when [has] returns false, [get] fails with a
    RuntimeError whose message starts "Property '<key>' not found in ". *)
Theorem get_follows_has (obj : value) (key : string) (name : option string) :
  match has obj key name with
  | Err e => get obj key name = Err e
  | Ok h =>
      if truthy h then exists v, get obj key name = Ok v
      else exists place,
          get obj key name
          = Err (RuntimeError ("Property '" ++ key ++ "' not found in " ++ place))
  end.
Proof.
  unfold get. destruct (has obj key name) as [h|e] eqn:Hhas; [|reflexivity].
  destruct (has_inversion _ _ _ _ Hhas) as (Hobj & v & b & Hv & Hown & ->).
  destruct (Object_keys_truthy obj Hobj) as [keys Hkeys].
  cbn [rbind truthy]. rewrite Hkeys. cbn [rbind].
  destruct b; unfold ensure; cbn [truthy negb].
  - destruct (name_given name); cbn [rbind]; rewrite Hv; cbn [rbind];
      rewrite (hasOwnProperty_member _ _ _ Hown); cbn [rbind];
      destruct (isArray (prop v key)); eauto;
      destruct (truthy (prop v key) && String.eqb (typeof (prop v key)) "object");
      eauto.
  - destruct (name_given name); cbn [rbind]; eauto.
Qed.

Lemma has_of_entries (entries : list (string * value)) (key : string)
  (name : option string) :
  has (object (PlainObject entries)) key name
  = b <- hasOwnProperty (PlainObject entries) key ;; Ok (Bool b).
Proof.
  unfold has.
  change (ensure (object (PlainObject entries)) _) with (Ok (A := value) (Bool true)).
  cbn [rbind].
  replace (as_ (object (PlainObject entries)) "Object" name)
    with (Ok (object (PlainObject entries))) by (destruct name; reflexivity).
  reflexivity.
Qed.

(** On an Object value none of whose entries is named 'hasOwnProperty',
    [has] returns whether the key is among the entries. *)
Theorem has_reports_entries (entries : list (string * value)) (key : string)
  (name : option string) :
  lookup entries "hasOwnProperty" = None ->
  has (object (PlainObject entries)) key name
  = Ok (Bool (existsb (String.eqb key) (map fst entries))).
Proof.
  intros Hmethod. rewrite has_of_entries.
  cbn [hasOwnProperty own_property]. rewrite Hmethod.
  replace (existsb (String.eqb key) (map fst entries))
    with (match lookup entries key with Some _ => true | None => false end).
  - destruct (lookup entries key); reflexivity.
  - clear Hmethod. induction entries as [|[k v] rest IH]; [reflexivity|].
    cbn [lookup map fst existsb]. rewrite (String.eqb_sym key k).
    destruct (String.eqb k key); [reflexivity|exact IH].
Qed.

(** An entry named 'hasOwnProperty' shadows the method that [has] calls on
    the entries: [has] and [get] then throw a TypeError for every key, the
    keys that are present included. *)
Theorem has_shadowed_by_entry (entries : list (string * value)) (x : value)
  (key : string) (name : option string) :
  lookup entries "hasOwnProperty" = Some x ->
  has (object (PlainObject entries)) key name = Err TypeError
  /\ get (object (PlainObject entries)) key name = Err TypeError.
Proof.
  intros Hmethod.
  assert (H : has (object (PlainObject entries)) key name = Err TypeError).
  { rewrite has_of_entries. cbn [hasOwnProperty own_property].
    now rewrite Hmethod. }
  split; [exact H|]. unfold get. now rewrite H.
Qed.

Lemma unwrap_primitive (v : value) :
  typeof v <> "object" -> unwrap v = Ok v.
Proof.
  intros H. unfold unwrap.
  destruct (String.eqb_spec (typeof v) "object") as [E|_]; [contradiction|].
  cbn [negb]. now rewrite Bool.orb_true_r.
Qed.

(** What [get] returns for an entry: a primitive as it is, an array wrapped
    as an Array value of the inferred type, an object wrapped as an Object
    value; in each case [unwrap] gives the entry back. *)
Theorem get_unwrap_roundtrip (entries : list (string * value)) (key : string)
  (val : value) (name : option string) :
  lookup entries key = Some val ->
  lookup entries "hasOwnProperty" = None ->
  get (object (PlainObject entries)) key name
  = Ok (match val with
        | PlainArray _ =>
            ArrayValue (type_name (inferArrayType val)) val
        | PlainObject _ => object val
        | _ => val
        end)
  /\ (v <- get (object (PlainObject entries)) key name ;; unwrap v) = Ok val.
Proof.
  intros Hkey Hmethod.
  assert (Hget : get (object (PlainObject entries)) key name
                 = Ok (if isArray val then array Null val
                       else if truthy val && String.eqb (typeof val) "object"
                            then object val else val)).
  { unfold get. rewrite has_of_entries.
    cbn [hasOwnProperty own_property]. rewrite Hmethod, Hkey. cbn [rbind].
    change (Object_keys (object (PlainObject entries)))
      with (Ok (A := list string) ["type"; "value"]).
    destruct (name_given name); cbn [rbind];
      change (member (object (PlainObject entries)) "value")
        with (Ok (PlainObject entries));
      cbn [rbind member];
      replace (prop (PlainObject entries) key) with val
        by (unfold prop; cbn [own_property]; now rewrite Hkey);
      unfold ensure; cbn [truthy negb rbind];
      destruct (isArray val); try reflexivity;
      destruct (truthy val && String.eqb (typeof val) "object"); reflexivity. }
  assert (Hshape : get (object (PlainObject entries)) key name
                   = Ok (match val with
                         | PlainArray _ =>
                             ArrayValue (type_name (inferArrayType val)) val
                         | PlainObject _ => object val
                         | _ => val
                         end)).
  { rewrite Hget. destruct val as [| |b|x|s|items|props]; try reflexivity;
      cbn; rewrite Bool.andb_false_r; reflexivity. }
  split; [exact Hshape|]. rewrite Hshape. cbn [rbind].
  destruct val as [| |b|x|s|items|props]; try reflexivity;
    apply unwrap_primitive; discriminate.
Qed.

End AccessProperties.

(* ================================================================== *)
(** * Patterns *)

(** A pattern that matches nothing. *)
Fixpoint dead (r : regex) : bool :=
  match r with
  | Void => true
  | Seq r1 r2 => dead r1 || dead r2
  | Alt r1 r2 => dead r1 && dead r2
  | _ => false
  end.

Lemma dead_not_nullable (r : regex) : dead r = true -> nullable r = false.
Proof.
  induction r; cbn; intros H; try discriminate; try reflexivity.
  - apply orb_prop in H as [H|H]; [rewrite (IHr1 H)|rewrite (IHr2 H)];
      [reflexivity|apply Bool.andb_false_r].
  - apply andb_prop in H as [H1 H2]. now rewrite IHr1, IHr2.
Qed.

Lemma dead_deriv (c : ascii) (r : regex) :
  dead r = true -> dead (deriv c r) = true.
Proof.
  induction r; cbn; intros H; try discriminate; try reflexivity.
  - destruct (nullable r1) eqn:N; cbn.
    + destruct (dead r1) eqn:D1.
      * rewrite (dead_not_nullable _ D1) in N. discriminate.
      * cbn in H. rewrite H, (IHr2 H). now rewrite Bool.orb_true_r.
    + apply orb_prop in H as [H|H]; [rewrite (IHr1 H)|rewrite H];
        [reflexivity|apply Bool.orb_true_r].
  - apply andb_prop in H as [H1 H2]. now rewrite IHr1, IHr2.
Qed.






Lemma regex_full_dead (s : string) (r : regex) :
  dead r = true -> regex_full r s = false.
Proof.
  revert r. induction s as [|c s IH]; intros r H; cbn [regex_full].
  - now apply dead_not_nullable.
  - apply IH. now apply dead_deriv.
Qed.

Lemma regex_full_Alt (s : string) (r1 r2 : regex) :
  regex_full (Alt r1 r2) s = regex_full r1 s || regex_full r2 s.
Proof.
  revert r1 r2. induction s as [|c s IH]; intros r1 r2; [reflexivity|].
  cbn [regex_full deriv]. apply IH.
Qed.

Lemma regex_full_Seq_Eps (s : string) (r : regex) :
  regex_full (Seq Eps r) s = regex_full r s.
Proof.
  destruct s as [|c s]; [reflexivity|].
  cbn [regex_full deriv nullable]. rewrite regex_full_Alt.
  now rewrite regex_full_dead by reflexivity.
Qed.

(** A literal matches itself and nothing else. *)
Lemma regex_full_lit (t s : string) : regex_full (lit t) s = String.eqb s t.
Proof.
  revert s. induction t as [|a t IH]; intros [|c s]; try reflexivity.
  - cbn [lit regex_full deriv]. now rewrite regex_full_dead.
  - cbn [lit regex_full deriv nullable]. cbn [String.eqb].
    destruct (Ascii.eqb c a).
    + rewrite regex_full_Seq_Eps. apply IH.
    + now rewrite regex_full_dead.
Qed.

Lemma regex_full_primitive (s : string) :
  regex_full primitive_pattern s
  = String.eqb s "String" || String.eqb s "Number" || String.eqb s "Boolean".
Proof.
  unfold primitive_pattern.
  rewrite !regex_full_Alt, !regex_full_lit. apply Bool.orb_assoc.
Qed.

(* ================================================================== *)
(** * Array indices as property keys *)

Lemma string_of_nat_inj (i j : nat) : string_of_nat i = string_of_nat j -> i = j.
Proof.
  unfold string_of_nat. intros H.
  apply (f_equal NilEmpty.uint_of_string) in H. rewrite !NilEmpty.usu in H.
  inversion H. now apply DecimalNat.Unsigned.to_uint_inj.
Qed.

(** A key that is not a decimal numeral is no index. *)
Lemma index_of_key_no_numeral (n : nat) (key : string) :
  NilEmpty.uint_of_string key = None -> index_of_key n key = None.
Proof.
  intros H. unfold index_of_key.
  destruct (find _ (seq 0 n)) as [i|] eqn:E; [|reflexivity].
  apply find_some in E as [_ E]. apply String.eqb_eq in E. subst key.
  unfold string_of_nat in H. rewrite NilEmpty.usu in H. discriminate.
Qed.

Lemma index_of_key_string_of_nat (n i : nat) :
  (i < n)%nat -> index_of_key n (string_of_nat i) = Some i.
Proof.
  intros Hi. unfold index_of_key.
  assert (H : forall len a, (a <= i < a + len)%nat ->
            find (fun j => String.eqb (string_of_nat j) (string_of_nat i))
                 (seq a len) = Some i).
  { induction len as [|len IH]; intros a Ha; [lia|]. cbn [seq find].
    destruct (String.eqb_spec (string_of_nat a) (string_of_nat i)) as [E|E].
    - now apply string_of_nat_inj in E as ->.
    - apply IH. assert (a <> i) by congruence. lia. }
  apply H. lia.
Qed.

Lemma prop_PlainArray_no_index (items : list value) (key : string) :
  NilEmpty.uint_of_string key = None -> prop (PlainArray items) key
  = if String.eqb key "length" then Num (num_of_nat (List.length items))
    else Undefined.
Proof.
  intros H. unfold prop. cbn [own_property].
  destruct (String.eqb key "length"); [reflexivity|].
  now rewrite index_of_key_no_numeral.
Qed.

(* ================================================================== *)
(** * Assertions and conversions *)

Section ConversionProperties.

Context {host : Host}.
Variable string_toNumber : string -> float.
Variable css_parseColor : string -> value.

(** The conversion to a string fails with a TypeError only. *)
Lemma toStr_error : forall (v : value) (e : exn),
  toStr v = Err e -> e = TypeError.
Proof.
  fix IH 1. intros v e. destruct v as [| |b|x|s|items|props]; cbn [toStr].
  - discriminate.
  - discriminate.
  - destruct b; discriminate.
  - discriminate.
  - discriminate.
  - match goal with |- (_ <- ?each items ;; _) = _ -> _ =>
      assert (Heach : forall l e', (forall i, In i l -> forall e0,
                                      toStr i = Err e0 -> e0 = TypeError) ->
                                   each l = Err e' -> e' = TypeError);
      [|destruct (each items) as [parts|e'] eqn:E; cbn [rbind];
        [discriminate|]]
    end.
    + induction l as [|i rest IHl]; intros e' Hl; [discriminate|].
      match goal with |- (_ <- ?c ;; _) = _ -> _ =>
        destruct c as [part|e1] eqn:E1 end; cbn [rbind].
      * match goal with |- (_ <- ?c ;; _) = _ -> _ =>
          destruct c as [parts|e2] eqn:E2 end; cbn [rbind]; [discriminate|].
        intros E. inversion E. subst e2.
        apply IHl; [|reflexivity]. intros j Hj. apply Hl. now right.
      * intros E. inversion E. subst e1.
        destruct i; try discriminate; apply (Hl _ (or_introl eq_refl)), E1.
    + intros E0. inversion E0. subst e'. apply (Heach items); [|exact E].
      clear - IH. induction items as [|i rest IHl]; intros j Hj; [destruct Hj|].
      destruct Hj as [<-|Hj]; [apply IH|now apply IHl].
  - destruct (lookup props "toString"); [|discriminate]. congruence.
Qed.

(** A value whose conversion to a string throws: an array that holds an
    object with an own [toString] that is no function. *)
Example toStr_throws :
  toStr (PlainArray [Str "Array"; PlainObject [("toString", Num 1)]])
  = Err TypeError.
Proof. reflexivity. Qed.


(** A type tag that mentions "Array" in an item but has no conversion to a
    string: the assertion throws the TypeError of the pattern's [test]. *)
Example as_Array_unconvertible_type :
  as_ (PlainObject [("type", PlainArray [Str "Array";
                                         PlainObject [("toString", Num 1)]])])
      "Array" None
  = Err TypeError.
Proof. reflexivity. Qed.

(** [toString] converts null and the values whose type is String, Number
    or Boolean, and only those: a string to itself, null to "null", a
    boolean to "true" or "false", a number as the language formats it. A
    value of any other type (undefined, and every Array, Object or Color
    value) is refused with a RuntimeError that names its type. *)
Theorem toString_accepts_primitives_only :
  (forall s, toString (Str s) = Ok (Str s))
  /\ toString Null = Ok (Str "null")
  /\ (forall b, toString (Bool b) = Ok (Str (if b then "true" else "false")))
  /\ (forall x, toString (Num x) = Ok (Str (number_toString x)))
  /\ (forall v T,
         typeOf v = Str T -> v <> Null ->
         T <> "String" -> T <> "Number" -> T <> "Boolean" ->
         toString v
         = Err (RuntimeError ("Expected a primitive value in [" ++ dquote
                              ++ "string" ++ dquote ++ ", ...], but found "
                              ++ T ++ " instead."))).
Proof.
  split; [|split; [|split; [|split]]]; try reflexivity.
  { intros []; reflexivity. }
  intros v T HT Hnull H1 H2 H3. unfold toString. rewrite HT.
  cbn [toStr rbind]. rewrite regex_full_primitive.
  apply String.eqb_neq in H1, H2, H3. rewrite H1, H2, H3.
  destruct v; try contradiction; reflexivity.
Qed.

(** [toNumber] returns a number other than NaN as it is, converts null to 0
    and a boolean to 0 or 1, and refuses NaN and undefined with a
    RuntimeError that quotes their serialization. On a bare array, one that
    carries no type tag, it never returns a number: [Number(value)] throws a
    TypeError when an item of the array has no conversion to a string, and
    otherwise, whatever [Number(value)] is, [unwrap] throws its built-in
    Error, since the message is built before the check. *)
Theorem toNumber_conversions :
  (forall x, PrimFloat.is_nan x = false ->
             toNumber string_toNumber (Num x) = Ok (Num x))
  /\ toNumber string_toNumber Null = Ok (Num 0)
  /\ (forall b, toNumber string_toNumber (Bool b)
                = Ok (Num (if b then 1 else 0)))
  /\ (forall v, v = Undefined \/ v = Num PrimFloat.nan ->
         toNumber string_toNumber v
         = Err (RuntimeError ("Could not convert "
                              ++ json_text (JSON_stringify v None)
                              ++ " to number.")))
  /\ (forall items,
         toNumber string_toNumber (PlainArray items)
         = match toStr (PlainArray items) with
           | Err _ => Err TypeError
           | Ok _ =>
               Err (Error ("Unrecognized value: "
                           ++ json_text (JSON_stringify (PlainArray items)
                                                        None)))
           end).
Proof.
  split; [|split; [|split; [|split]]].
  - intros x Hx. unfold toNumber. cbn [ToNumber rbind].
    rewrite (unwrap_primitive (Num x)) by discriminate. cbn [rbind].
    rewrite Hx. reflexivity.
  - reflexivity.
  - intros []; reflexivity.
  - intros v [->| ->]; reflexivity.
  - intros items. unfold toNumber. cbn [ToNumber].
    destruct (toStr (PlainArray items)) as [s|e] eqn:E; cbn [rbind].
    + unfold unwrap.
      rewrite (prop_PlainArray_no_index items "type") by reflexivity.
      reflexivity.
    + now rewrite (toStr_error _ _ E).
Qed.

(** A bare array that holds an object with an own [toString] that is no
    function: [Number(value)] throws before [unwrap] is reached. *)
Example toNumber_unconvertible_item :
  toNumber string_toNumber (PlainArray [PlainObject [("toString", Num 1)]])
  = Err TypeError.
Proof. reflexivity. Qed.

(** [parseColor] fails exactly when the parser gives [undefined]; otherwise
    it returns a value of type Color that unwraps to what the parser gave. *)
Theorem parseColor_wraps_parser_result (input : string) :
  (css_parseColor input = Undefined ->
   parseColor css_parseColor input
   = Err (RuntimeError ("Could not parse color from value '" ++ input ++ "'")))
  /\ (css_parseColor input <> Undefined ->
      exists c, parseColor css_parseColor input = Ok c
                /\ typeOf c = Str "Color"
                /\ unwrap c = Ok (css_parseColor input)).
Proof.
  unfold parseColor.
  change (prop (PlainObject [("type", Str "Color");
                             ("value", css_parseColor input)]) "value")
    with (css_parseColor input).
  split.
  - intros ->. reflexivity.
  - intros H.
    exists (PlainObject [("type", Str "Color"); ("value", css_parseColor input)]).
    split; [|split; reflexivity].
    destruct (css_parseColor input); try reflexivity. contradiction.
Qed.

Lemma string_of_nat_not_length (i : nat) : string_of_nat i <> "length".
Proof.
  intros H. apply (f_equal NilEmpty.uint_of_string) in H.
  unfold string_of_nat in H. rewrite NilEmpty.usu in H. discriminate.
Qed.

(** [at] on an Array value: an index that is not below the length (NaN
    included) is refused with a RuntimeError; an index below the length that
    is written as the decimal numeral of [i] reads item [i]; an index below
    the length that is not written as a numeral (a negative or fractional
    one) is not refused and reads [undefined], there being no check from
    below. *)
Theorem at_bounds (index : float) (arrayType : string) (items : list value) :
  let array := ArrayValue arrayType (PlainArray items) in
  let length := num_of_nat (List.length items) in
  (PrimFloat.ltb index length = false ->
   at_ string_toNumber index array
   = Err (RuntimeError ("Array index out of bounds: " ++ number_toString index
                        ++ " > " ++ number_toString length ++ ".")))
  /\ (forall i item,
         PrimFloat.ltb index length = true ->
         number_toString index = string_of_nat i ->
         nth_error items i = Some item ->
         at_ string_toNumber index array = Ok item)
  /\ (PrimFloat.ltb index length = true ->
      NilEmpty.uint_of_string (number_toString index) = None ->
      number_toString index <> "length" ->
      at_ string_toNumber index array = Ok Undefined).
Proof.
  intros array length.
  assert (Hat : at_ string_toNumber index array
                = _ <- ensure (Bool (PrimFloat.ltb index length))
                         ("Array index out of bounds: " ++ number_toString index
                          ++ " > " ++ number_toString length ++ ".") ;;
                  Ok (prop (PlainArray items) (number_toString index)))
    by reflexivity.
  rewrite Hat. split; [|split].
  - intros ->. reflexivity.
  - intros i item -> Hkey Hitem. cbn [ensure truthy negb rbind]. f_equal.
    rewrite Hkey. unfold prop. cbn [own_property].
    destruct (String.eqb_spec (string_of_nat i) "length") as [E|_];
      [now apply string_of_nat_not_length in E|].
    rewrite index_of_key_string_of_nat, Hitem; [reflexivity|].
    apply nth_error_Some. congruence.
  - intros -> Hkey Hlength. cbn [ensure truthy negb rbind]. f_equal.
    rewrite prop_PlainArray_no_index by exact Hkey.
    apply String.eqb_neq in Hlength. now rewrite Hlength.
Qed.

End ConversionProperties.

(* ================================================================== *)
(** * The search outside its intended inputs *)

Lemma is_nan_unordered (x y : float) :
  PrimFloat.is_nan x = true ->
  PrimFloat.ltb x y = false /\ PrimFloat.ltb y x = false
  /\ PrimFloat.eqb x y = false /\ PrimFloat.eqb y x = false
  /\ PrimFloat.leb x y = false /\ PrimFloat.leb y x = false.
Proof.
  intros Hnan.
  assert (Hkey : fkey x = None).
  { destruct (fkey x) as [k|] eqn:E; [|reflexivity].
    assert (Hord : ordered x) by (apply ordered_key; eauto).
    unfold PrimFloat.is_nan in Hnan. unfold ordered in Hord.
    rewrite Hord in Hnan. discriminate. }
  pose proof (float_compare_view x y) as H1.
  pose proof (float_compare_view y x) as H2.
  rewrite Hkey in H1, H2.
  destruct (fkey y); destruct H1 as (-> & -> & ->); destruct H2 as (-> & -> & ->);
    auto 10.
Qed.

(** With a NaN input no test of the loop applies: while the interval is not
    empty, no amount of fuel makes the search return. *)
Lemma findStop_loop_NaN_input (stops : list float) (input : float) :
  PrimFloat.is_nan input = true ->
  forall (fuel : nat) (lo hi cur : Z),
    (lo <= hi)%Z -> findStop_loop fuel stops input lo hi cur = None.
Proof.
  intros Hnan. induction fuel as [|fuel IH]; intros lo hi cur Hle;
    rewrite findStop_loop_step; destruct (Z.leb_spec lo hi); try lia;
    [reflexivity|].
  cbv zeta. unfold js_gt.
  assert (Hlt : forall o, js_lt (Some input) o = false).
  { intros [y|]; [|reflexivity]. cbn [js_lt].
    now destruct (is_nan_unordered input y Hnan) as (-> & _). }
  assert (Hgt : forall o, js_lt o (Some input) = false).
  { intros [y|]; [|reflexivity]. cbn [js_lt].
    now destruct (is_nan_unordered input y Hnan) as (_ & -> & _). }
  assert (Heq : forall o, js_eq (Some input) o = false).
  { intros [y|]; [|reflexivity]. cbn [js_eq].
    now destruct (is_nan_unordered input y Hnan) as (_ & _ & -> & _). }
  rewrite Heq, !Hgt, !Hlt. cbn [orb andb]. now apply IH.
Qed.

(** When every stop is below the input, each iteration moves right, and the
    loop ends on the last index and returns the one before it. *)
Lemma findStop_loop_all_below (stops : list float) (input : float) :
  (forall x, In x stops -> flt x input) ->
  forall (fuel : nat) (lo cur : Z),
    (0 <= lo)%Z ->
    (lo <= Z.of_nat (List.length stops) - 1
     \/ cur = Z.of_nat (List.length stops) - 1)%Z ->
    (Z.of_nat (List.length stops) - lo <= Z.of_nat fuel)%Z ->
    findStop_loop fuel stops input lo (Z.of_nat (List.length stops) - 1) cur
    = Some (Z.max (Z.of_nat (List.length stops) - 2) 0).
Proof.
  intros Hbelow. induction fuel as [|fuel IH]; intros lo cur Hlo Hcur Hfuel;
    rewrite findStop_loop_step;
    destruct (Z.leb_spec lo (Z.of_nat (List.length stops) - 1)) as [Hle|Hgt];
    try lia; try (destruct Hcur as [Hcur|Hcur]; [lia|subst cur; f_equal; lia]).
  cbv zeta. pose proof (halfway_between _ _ Hle) as Hmid.
  set (mid := ((lo + (Z.of_nat (List.length stops) - 1)) / 2)%Z) in *.
  destruct (elem_Some stops mid ltac:(lia)) as [v Hv]. rewrite Hv.
  pose proof (Hbelow v (elem_In _ _ _ Hv)) as L.
  assert (Hnext : js_lt (Some input) (elem stops (mid + 1)%Z) = false).
  { destruct (elem stops (mid + 1)%Z) as [u|] eqn:Hu; [|reflexivity].
    cbn [js_lt]. pose proof (Hbelow u (elem_In _ _ _ Hu)) as Lu.
    now destruct (flt_bools _ _ Lu) as (_ & -> & _). }
  unfold js_gt. rewrite Hnext. cbn [js_eq js_lt].
  destruct (flt_bools _ _ L) as (-> & _ & _ & -> & _). cbn [orb andb].
  apply IH; lia.
Qed.

(** When every stop is above the input, each iteration moves left, and the
    loop ends on index 0. *)
Lemma findStop_loop_all_above (stops : list float) (input : float) :
  (forall x, In x stops -> flt input x) ->
  forall (fuel : nat) (hi cur : Z),
    (hi <= Z.of_nat (List.length stops) - 1)%Z ->
    (0 <= hi \/ cur = 0)%Z ->
    (hi + 1 <= Z.of_nat fuel)%Z ->
    findStop_loop fuel stops input 0 hi cur = Some 0%Z.
Proof.
  intros Habove. induction fuel as [|fuel IH]; intros hi cur Hhi Hcur Hfuel;
    rewrite findStop_loop_step; destruct (Z.leb_spec 0 hi) as [Hle|Hgt];
    try lia; try (destruct Hcur as [Hcur|Hcur]; [lia|subst cur; reflexivity]).
  cbv zeta. pose proof (halfway_between _ _ Hle) as Hmid.
  set (mid := ((0 + hi) / 2)%Z) in *.
  destruct (elem_Some stops mid ltac:(lia)) as [v Hv]. rewrite Hv.
  pose proof (Habove v (elem_In _ _ _ Hv)) as L.
  unfold js_gt. cbn [js_eq js_lt].
  destruct (flt_bools _ _ L) as (-> & -> & -> & _). cbn [orb andb].
  apply IH; lia.
Qed.

(** Above every stop: although the last stop is the last one at most
    [input], the search answers the index before it (and 0 for a single
    stop). No order among the stops is needed. *)
Theorem findStop_above_every_stop (fuel : nat) (stops : list float)
  (input : float) :
  (forall x, In x stops -> PrimFloat.ltb x input = true) ->
  (List.length stops <= fuel)%nat ->
  findStopLessThanOrEqualTo fuel stops input
  = Some (Z.max (Z.of_nat (List.length stops) - 2) 0).
Proof.
  intros Hbelow Hfuel. unfold findStopLessThanOrEqualTo.
  destruct stops as [|x stops'] eqn:E.
  - rewrite findStop_loop_step. reflexivity.
  - rewrite <- E in *. apply findStop_loop_all_below; trivial; try lia.
    left. subst stops. cbn [List.length]. lia.
Qed.

(** Below every stop the search answers 0. *)
Theorem findStop_below_every_stop (fuel : nat) (stops : list float)
  (input : float) :
  (forall x, In x stops -> PrimFloat.ltb input x = true) ->
  (List.length stops <= fuel)%nat ->
  findStopLessThanOrEqualTo fuel stops input = Some 0%Z.
Proof.
  intros Habove Hfuel. unfold findStopLessThanOrEqualTo.
  apply findStop_loop_all_above; trivial; try lia.
Qed.

(** The invariant of the search on strictly increasing stops, the last stop
    being allowed to equal the input. *)
Lemma findStop_loop_sorted_closed (stops : list float) (input : float) :
  strictly_increasing stops = true ->
  (forall i x, elem stops i = Some x -> ordered x) ->
  ordered input ->
  js_le (Some input) (elem stops (Z.of_nat (List.length stops) - 1)%Z) = true ->
  forall (fuel : nat) (lo hi cur : Z),
    (0 <= lo)%Z -> (hi <= Z.of_nat (List.length stops) - 1)%Z ->
    js_le (elem stops lo) (Some input) = true ->
    (forall k y, (hi < k)%Z -> elem stops k = Some y -> flt input y) ->
    (hi - lo + 1 <= Z.of_nat fuel)%Z ->
    exists i, findStop_loop fuel stops input lo hi cur = Some i
              /\ search_complete stops input i.
Proof.
  intros Hsorted Hordered Hinput Hlast.
  destruct (elem stops (Z.of_nat (List.length stops) - 1)%Z) as [last|] eqn:Hl;
    [|discriminate].
  cbn [js_le] in Hlast.
  assert (Hexit : forall lo hi, (hi < lo)%Z ->
            js_le (elem stops lo) (Some input) = true ->
            (forall k y, (hi < k)%Z -> elem stops k = Some y -> flt input y) ->
            False).
  { intros lo hi Hlt HA HB. destruct (elem stops lo) as [a|] eqn:Ha;
      [|discriminate]. cbn [js_le] in HA.
    pose proof (HB lo a Hlt Ha) as L.
    destruct (flt_bools _ _ L) as (_ & _ & _ & _ & _ & E). congruence. }
  induction fuel as [|fuel IH]; intros lo hi cur Hlo Hhi HA HB Hfuel;
    rewrite findStop_loop_step; destruct (Z.leb_spec lo hi) as [Hle|Hgt];
    try lia; try (exfalso; exact (Hexit lo hi Hgt HA HB)).
  cbv zeta. pose proof (halfway_between lo hi Hle) as Hmid.
  set (mid := ((lo + hi) / 2)%Z) in *.
  destruct (elem_Some stops mid ltac:(lia)) as [v Hv]. rewrite Hv.
  pose proof (Hordered mid v Hv) as Hord.
  unfold js_gt. cbn [js_eq js_lt].
  destruct (float_trichotomy input v Hinput Hord) as [L|[E|G]].
  - destruct (flt_bools _ _ L) as (-> & -> & -> & _). cbn [orb andb].
    apply IH; trivial; try lia.
    intros k y Hk Hy. destruct (Z.eq_dec k mid) as [->|Hne].
    + rewrite Hv in Hy. now inversion Hy; subst.
    + apply (flt_trans _ v _ L).
      apply (strictly_increasing_elem _ Hsorted mid k); trivial. lia.
  - destruct (feq_bools _ _ E) as (-> & _). cbn [orb].
    eexists; split; [reflexivity|]. exists v. auto.
  - destruct (flt_bools _ _ G) as (-> & _ & _ & -> & _). cbn [orb andb].
    destruct (elem stops (mid + 1)%Z) as [u|] eqn:Hu.
    + cbn [js_lt]. pose proof (Hordered _ u Hu) as Hordu.
      destruct (float_trichotomy input u Hinput Hordu) as [Lu|[Eu|Gu]].
      * destruct (flt_bools _ _ Lu) as (-> & _). cbn [orb andb].
        eexists; split; [reflexivity|]. exists v. split; [exact Hv|].
        right. split; [exact G|]. exists u. auto.
      * destruct (feq_bools _ _ Eu) as (_ & -> & _). cbn [orb andb].
        pose proof (elem_range _ _ _ Hu).
        apply IH; trivial; try lia.
        rewrite Hu. cbn [js_le]. apply leb_flt_feq. right. now apply feq_sym.
      * destruct (flt_bools _ _ Gu) as (_ & -> & _). cbn [orb andb].
        pose proof (elem_range _ _ _ Hu).
        apply IH; trivial; try lia.
        rewrite Hu. cbn [js_le]. apply leb_flt_feq. now left.
    + exfalso. assert (mid = Z.of_nat (List.length stops) - 1)%Z as Hm.
      { pose proof (elem_range _ _ _ Hv).
        destruct (Z_lt_le_dec (mid + 1) (Z.of_nat (List.length stops))) as [Hin|]; [|lia].
        destruct (elem_Some stops (mid + 1) ltac:(lia)) as [u' Hu']. congruence. }
      rewrite Hm in Hv. rewrite Hl in Hv. inversion Hv; subst.
      destruct (flt_bools _ _ G) as (_ & _ & _ & _ & _ & Hno). congruence.
Qed.

(** On strictly increasing stops and an input from the first stop to the
    last one, both included, the search returns the greatest index whose
    stop is at most the input: the last index for an input equal to the last
    stop. *)
Theorem findStop_within_stops (fuel : nat) (stops : list float) (input : float) :
  strictly_increasing stops = true ->
  js_le (elem stops 0%Z) (Some input) = true ->
  js_le (Some input) (elem stops (Z.of_nat (List.length stops) - 1)%Z) = true ->
  (List.length stops <= fuel)%nat ->
  exists i, findStopLessThanOrEqualTo fuel stops input = Some i
            /\ greatest_stop_le stops input i.
Proof.
  intros Hsorted Hfirst Hlast Hfuel.
  destruct (elem stops 0%Z) as [first|] eqn:Hf; [|discriminate].
  cbn [js_le] in Hfirst.
  assert (Hinput : ordered input).
  { apply leb_flt_feq in Hfirst as [L|E].
    - exact (proj2 (flt_ordered _ _ L)).
    - apply feq_key in E as (k & _ & Hk). apply ordered_key. eauto. }
  assert (Hordered : forall i x, elem stops i = Some x -> ordered x).
  { intros i x Hx. destruct (Nat.le_gt_cases 2 (List.length stops)) as [Hn|Hn].
    - exact (strictly_increasing_ordered _ Hsorted Hn i x Hx).
    - pose proof (elem_range _ _ _ Hx). assert (i = 0%Z) as -> by lia.
      rewrite Hf in Hx. inversion Hx; subst.
      apply leb_flt_feq in Hfirst as [L|E].
      + exact (proj1 (flt_ordered _ _ L)).
      + apply feq_key in E as (k & Hk & _). apply ordered_key. eauto. }
  pose proof (elem_range _ _ _ Hf) as Hrange.
  unfold findStopLessThanOrEqualTo.
  destruct (findStop_loop_sorted_closed stops input Hsorted Hordered Hinput Hlast
              fuel 0%Z (Z.of_nat (List.length stops) - 1)%Z 0%Z)
    as (i & Hi & Hdone); try lia.
  - now rewrite Hf.
  - intros k y Hk Hy. apply elem_range in Hy. lia.
  - exists i. split; [exact Hi|]. now apply search_complete_greatest.
Qed.

(* ================================================================== *)
(** * evaluateCurve: interpolation and edge inputs *)

Section CurveInterpolation.

Context {host : Host} {S : Type}.

(** A NaN input passes the assertion on the input (its type is Number) and
    both boundary tests are false for it; with two stops or more the search
    then never returns, whatever the fuel: [evaluateCurve] does not
    terminate. *)
Theorem evaluateCurve_NaN_input_never_returns (fuel : nat) (input : float)
  (stopInputs : list float) (stopOutputs : list (@thunk S))
  (interpolation : InterpolationType) (resultType : string) (s : S) :
  PrimFloat.is_nan input = true ->
  (2 <= List.length stopInputs)%nat ->
  evaluateCurve fuel input stopInputs stopOutputs interpolation resultType s
  = Diverges.
Proof.
  intros Hnan Hn. rewrite evaluateCurve_unfold. cbv zeta.
  destruct (Z.eqb_spec (Z.of_nat (List.length stopInputs)) 1); [lia|].
  assert (Hle : forall o, js_le (Some input) o = false).
  { intros [y|]; [|reflexivity]. cbn [js_le].
    now destruct (is_nan_unordered input y Hnan) as (_ & _ & _ & _ & -> & _). }
  assert (Hge : forall o, js_ge (Some input) o = false).
  { intros [y|]; [|reflexivity]. unfold js_ge. cbn [js_le].
    now destruct (is_nan_unordered input y Hnan) as (_ & _ & _ & _ & _ & ->). }
  rewrite Hle, Hge. unfold findStopLessThanOrEqualTo.
  rewrite (findStop_loop_NaN_input stopInputs input Hnan); [reflexivity|lia].
Qed.

(** With no stop at all, [evaluateCurve] throws a TypeError: the search
    answers index 0 and the call of [stopOutputs[0]] finds no function. *)
Theorem evaluateCurve_no_stops (fuel : nat) (input : float)
  (interpolation : InterpolationType) (resultType : string) (s : S) :
  evaluateCurve fuel input [] [] interpolation resultType s = Throws TypeError s.
Proof.
  rewrite evaluateCurve_unfold. cbv zeta.
  change (findStopLessThanOrEqualTo fuel [] input)
    with (findStop_loop fuel [] input 0 (-1) 0).
  rewrite findStop_loop_step. cbn.
  destruct (String.eqb (interpolation_name interpolation) "step"); reflexivity.
Qed.

(** Strictly inside the stops and for an interpolation other than Step,
    [evaluateCurve] calls the two bracketing output thunks, the lower one
    first, and blends what they return. *)
Lemma evaluateCurve_interpolating (fuel : nat) (input : float)
  (stopInputs : list float) (stopOutputs : list (@thunk S))
  (interpolation : InterpolationType) (resultType : string) (s : S) (i : Z) :
  (2 <= List.length stopInputs)%nat ->
  strictly_increasing stopInputs = true ->
  js_lt (elem stopInputs 0%Z) (Some input) = true ->
  js_lt (Some input)
        (elem stopInputs (Z.of_nat (List.length stopInputs) - 1)%Z) = true ->
  (List.length stopInputs <= fuel)%nat ->
  interpolation_name interpolation <> "step" ->
  greatest_stop_le stopInputs input i ->
  evaluateCurve fuel input stopInputs stopOutputs interpolation resultType s
  = let t := interpolationFactor (Num input)
               (if String.eqb (interpolation_name interpolation) "exponential"
                then interpolation_base interpolation else Num 1%float)
               (elemv stopInputs i) (elemv stopInputs (i + 1)%Z) in
    bind (call stopOutputs i) (fun outputLower =>
    bind (call stopOutputs (i + 1)%Z) (fun outputUpper =>
      if String.eqb resultType "color" then
        bind (lift (member outputLower "value")) (fun lower =>
        bind (lift (member outputUpper "value")) (fun upper =>
        bind (lift (interpolate_call "color" lower upper t)) (fun c =>
        ret (PlainObject [("type", Str "Color"); ("value", c)]))))
      else if String.eqb resultType "array" then
        bind (lift (member outputLower "type")) (fun arrayType =>
        bind (lift (member outputLower "items")) (fun lower =>
        bind (lift (member outputUpper "items")) (fun upper =>
        bind (lift (interpolate_call "array" lower upper t)) (fun items =>
        ret (array arrayType items)))))
      else lift (interpolate_call resultType outputLower outputUpper t))) s.
Proof.
  intros Hn Hsorted Hfirst Hlast Hfuel Hkind Hi.
  destruct (findStop_inside fuel input stopInputs Hn Hsorted Hfirst Hlast Hfuel)
    as (H1 & H2 & H3 & i' & Hi' & Hdone).
  assert (i' = i) as ->.
  { eapply greatest_stop_le_unique; [|exact Hi].
    now apply search_complete_greatest. }
  rewrite evaluateCurve_unfold. cbv zeta. rewrite H1, H2, H3, Hi'.
  apply String.eqb_neq in Hkind. now rewrite Hkind.
Qed.

(** For a result type other than 'color' and 'array', the result inside the
    stops is [interpolate[resultType](lower, upper, t)] on what the two
    bracketing thunks return, with [t] the interpolation factor of the input
    between the two stops (base 1 unless the interpolation is exponential);
    a failure of the lower thunk is the failure of the call, and the upper
    thunk is then not evaluated. *)
Theorem evaluateCurve_blends_bracketing_outputs (fuel : nat) (input : float)
  (stopInputs : list float) (stopOutputs : list (@thunk S))
  (interpolation : InterpolationType) (resultType : string) (s : S) (i : Z) :
  (2 <= List.length stopInputs)%nat ->
  strictly_increasing stopInputs = true ->
  js_lt (elem stopInputs 0%Z) (Some input) = true ->
  js_lt (Some input)
        (elem stopInputs (Z.of_nat (List.length stopInputs) - 1)%Z) = true ->
  (List.length stopInputs <= fuel)%nat ->
  interpolation_name interpolation <> "step" ->
  resultType <> "color" -> resultType <> "array" ->
  greatest_stop_le stopInputs input i ->
  (forall lower upper s1 s2,
      call stopOutputs i s = Returns lower s1 ->
      call stopOutputs (i + 1)%Z s1 = Returns upper s2 ->
      evaluateCurve fuel input stopInputs stopOutputs interpolation resultType s
      = lift (interpolate_call resultType lower upper
                (interpolationFactor (Num input)
                   (if String.eqb (interpolation_name interpolation) "exponential"
                    then interpolation_base interpolation else Num 1%float)
                   (elemv stopInputs i) (elemv stopInputs (i + 1)%Z))) s2)
  /\ (forall e s1,
         call stopOutputs i s = Throws e s1 ->
         evaluateCurve fuel input stopInputs stopOutputs interpolation resultType s
         = Throws e s1).
Proof.
  intros Hn Hsorted Hfirst Hlast Hfuel Hkind Hcolor Harray Hi.
  rewrite (evaluateCurve_interpolating fuel input stopInputs stopOutputs
             interpolation resultType s i Hn Hsorted Hfirst Hlast Hfuel Hkind Hi).
  cbv zeta. apply String.eqb_neq in Hcolor, Harray. split.
  - intros lower upper s1 s2 Hlower Hupper.
    unfold bind at 1. rewrite Hlower. unfold bind at 1. rewrite Hupper.
    now rewrite Hcolor, Harray.
  - intros e s1 Hlower. unfold bind at 1. now rewrite Hlower.
Qed.

(** For the result type 'color', the result inside the stops is a value of
    type Color whose channels are [interpolate.color] of the channels of the
    two bracketing outputs. *)
Theorem evaluateCurve_blends_colors (fuel : nat) (input : float)
  (stopInputs : list float) (stopOutputs : list (@thunk S))
  (interpolation : InterpolationType) (s s1 s2 : S) (i : Z)
  (outputLower outputUpper lower upper c : value) :
  (2 <= List.length stopInputs)%nat ->
  strictly_increasing stopInputs = true ->
  js_lt (elem stopInputs 0%Z) (Some input) = true ->
  js_lt (Some input)
        (elem stopInputs (Z.of_nat (List.length stopInputs) - 1)%Z) = true ->
  (List.length stopInputs <= fuel)%nat ->
  interpolation_name interpolation <> "step" ->
  greatest_stop_le stopInputs input i ->
  call stopOutputs i s = Returns outputLower s1 ->
  call stopOutputs (i + 1)%Z s1 = Returns outputUpper s2 ->
  member outputLower "value" = Ok lower ->
  member outputUpper "value" = Ok upper ->
  interpolate_call "color" lower upper
    (interpolationFactor (Num input)
       (if String.eqb (interpolation_name interpolation) "exponential"
        then interpolation_base interpolation else Num 1%float)
       (elemv stopInputs i) (elemv stopInputs (i + 1)%Z)) = Ok c ->
  evaluateCurve fuel input stopInputs stopOutputs interpolation "color" s
  = Returns (PlainObject [("type", Str "Color"); ("value", c)]) s2
  /\ typeOf (PlainObject [("type", Str "Color"); ("value", c)]) = Str "Color"
  /\ unwrap (PlainObject [("type", Str "Color"); ("value", c)]) = Ok c.
Proof.
  intros Hn Hsorted Hfirst Hlast Hfuel Hkind Hi Hlower Hupper Hl Hu Hblend.
  split; [|split; reflexivity].
  rewrite (evaluateCurve_interpolating fuel input stopInputs stopOutputs
             interpolation "color" s i Hn Hsorted Hfirst Hlast Hfuel Hkind Hi).
  cbv zeta. unfold bind at 1. rewrite Hlower. unfold bind at 1. rewrite Hupper.
  change (String.eqb "color" "color") with true. cbv iota.
  rewrite Hl, Hu. unfold bind, lift, ret. now rewrite Hblend.
Qed.

(** [coalesce] of a single thunk is that thunk. *)
Theorem coalesce_single_thunk (f : @thunk S) (s : S) : coalesce [f] s = f s.
Proof.
  cbn [coalesce]. destruct (f s) as [v s'|e s'|]; try reflexivity.
  now destruct v.
Qed.

(** A last thunk that always returns a value other than null is a default:
    if none of the thunks before it diverges, [coalesce] returns a value
    other than null and does not throw, whatever the other thunks do. *)
Theorem coalesce_with_default (fs : list (@thunk S)) (default : @thunk S) :
  Forall (fun f : @thunk S => forall s, f s <> Diverges) fs ->
  (forall s, exists v s', default s = Returns v s' /\ v <> Null) ->
  forall s, exists v s',
      coalesce (fs ++ [default]) s = Returns v s' /\ v <> Null.
Proof.
  intros Hfs Hdefault. induction Hfs as [|f fs Hf _ IH]; intros s.
  - destruct (Hdefault s) as (v & s' & Hd & Hv). exists v, s'.
    split; [|exact Hv]. cbn [app coalesce]. rewrite Hd.
    now destruct v.
  - cbn [app coalesce]. specialize (Hf s).
    destruct (f s) as [v s'|e s'|]; [| |contradiction].
    + destruct v; try (eexists _, s'; split; [reflexivity|discriminate]).
      apply IH.
    + destruct (fs ++ [default])%list eqn:E; [|apply IH].
      apply app_eq_nil in E. now destruct E.
Qed.

End CurveInterpolation.

(* ================================================================== *)
(** * createFunction: the function it returns *)

Section BuilderResults.

Context {host : Host} {S : Type} {collab : Collaborators host S}.

(** Whatever [createFunction] returns comes from a successful compilation,
    with the two flags copied, no zoom metadata on a zoom-constant function,
    and an evaluator that calls the compiled function on [{zoom}] and
    [{properties}] and reports its null as [undefined]: the evaluator never
    returns null. *)
Theorem createFunction_wraps_compiled (parameters propertySpec : value)
  (f : CompiledFunction S) :
  snd (createFunction parameters propertySpec) = Ok f ->
  exists expr expectedType compiled,
    compileExpression expr expectedType = CompileSuccess compiled
    /\ isFeatureConstant f = compiled_isFeatureConstant compiled
    /\ isZoomConstant f = compiled_isZoomConstant compiled
    /\ (isZoomConstant f = true -> zoomStops f = None /\ interpolationT f = None)
    /\ (forall zoom properties s,
           f_call f zoom properties s
           = match compiled_function compiled (PlainObject [("zoom", zoom)])
                     (PlainObject [("properties", properties)]) s with
             | Returns v s' => Returns (if is_null v then Undefined else v) s'
             | Throws e s' => Throws e s'
             | Diverges => Diverges
             end)
    /\ (forall zoom properties s v s',
           f_call f zoom properties s = Returns v s' -> v <> Null).
Proof.
  unfold createFunction.
  destruct (normalize parameters propertySpec) as [expr|e]; [|discriminate].
  destruct (getExpectedType propertySpec) as [expectedType|e]; [|discriminate].
  destruct (compileExpression expr expectedType) as [compiled|errors] eqn:Hc;
    [|discriminate].
  intros Hf. exists expr, expectedType, compiled.
  assert (Hcall : forall g : CompiledFunction S,
            f_call g = (fun zoom properties =>
                          bind (compiled_function compiled
                                  (PlainObject [("zoom", zoom)])
                                  (PlainObject [("properties", properties)]))
                               (fun val => ret (if is_null val then Undefined
                                                else val))) ->
            forall zoom properties s v s',
              f_call g zoom properties s = Returns v s' -> v <> Null).
  { intros g -> zoom properties s v s'. unfold bind, ret.
    destruct (compiled_function compiled _ _ s) as [w s1| |]; try discriminate.
    intros E. inversion E. now destruct w. }
  destruct (compiled_isZoomConstant compiled) eqn:Hz; cbn [negb] in Hf.
  - cbn [snd] in Hf. inversion Hf as [Hf']. subst f. clear Hf.
    split; [exact Hc|]. split; [reflexivity|]. split; [reflexivity|].
    split; [auto|]. split; [reflexivity|].
    intros zoom properties s v s' Hv.
    eapply Hcall; [|exact Hv]; reflexivity.
  - destruct (curve_metadata compiled) as [[stops interp]|e]; [|discriminate].
    cbn [snd] in Hf. inversion Hf as [Hf']. subst f. clear Hf.
    split; [exact Hc|]. split; [reflexivity|]. split; [reflexivity|].
    split; [discriminate|]. split; [reflexivity|].
    intros zoom properties s v s' Hv.
    eapply Hcall; [|exact Hv]; reflexivity.
Qed.

(** [null] is not taken for a literal: [isFunctionDefinition] reads a
    property of it, and [createFunction] throws a TypeError before it
    converts or compiles anything. *)
Theorem createFunction_null_parameters (propertySpec : value) :
  createFunction Null propertySpec = ([], Err TypeError).
Proof. reflexivity. Qed.

Lemma stops_of_interleave (pairs : list (Expression * Expression)) :
  stops_of (interleave pairs) = map (fun p => expr_value (fst p)) pairs.
Proof.
  induction pairs as [|[stop output] pairs IH]; [reflexivity|].
  cbn [interleave flat_map app stops_of map fst]. f_equal. exact IH.
Qed.

Lemma push_stops_indexed (i0 : nat) (zoomStops : list value) :
  push_stops i0 zoomStops
  = flat_map (fun p => [snd p; Num (num_of_nat (fst p))])
      (combine (seq i0 (List.length zoomStops)) zoomStops).
Proof.
  revert i0. induction zoomStops as [|z zs IH]; intros i0; [reflexivity|].
  cbn [push_stops List.length seq combine flat_map app fst snd].
  now rewrite IH.
Qed.

(** What the metadata block computes once the curve is located and its
    arguments are two leading ones followed by stop inputs and outputs in
    turn. *)
Lemma curve_metadata_located (compiled : Compiled S) (curve a0 a1 : Expression)
  (pairs : list (Expression * Expression)) (serialized interpolation : value) :
  curve_located (compiled_expression compiled) curve ->
  expr_args curve = Some (a0 :: a1 :: interleave pairs) ->
  expr_serialize curve = Ok serialized ->
  member serialized "1" = Ok interpolation ->
  curve_metadata compiled
  = let zoomStops := map (fun p => expr_value (fst p)) pairs in
    if negb (compiled_isFeatureConstant compiled) then
      match compileExpression (auxiliary_expression interpolation zoomStops)
              (TyRef NumberType) with
      | CompileSuccess interpFunction =>
          Ok (zoomStops, Some (compiled_function interpFunction))
      | CompileFailure _ => Err AssertionError
      end
    else Ok (zoomStops, None).
Proof.
  intros Hlocated Hargs Hserialize Hinterpolation. unfold curve_metadata.
  assert (Hcurve : (if negb (is_str (expr_name (compiled_expression compiled)) "curve")
                    then match expr_args (compiled_expression compiled) with
                         | Some (first :: _) => Ok first
                         | _ => Err TypeError
                         end
                    else Ok (compiled_expression compiled)) = Ok curve).
  { destruct Hlocated as [[Hname ->]|[Hname [rest Hrest]]]; rewrite Hname.
    - reflexivity.
    - cbn [negb]. now rewrite Hrest. }
  rewrite Hcurve. cbn [rbind]. rewrite Hargs, Hserialize. cbn [rbind].
  rewrite Hinterpolation. cbn [rbind skipn]. rewrite stops_of_interleave.
  cbv zeta. unfold auxiliary_expression. now rewrite push_stops_indexed.
Qed.

(** For a function of the zoom only, [zoomStops] holds the values of the
    curve's arguments 2, 4, 6, ..., in order, and no [interpolationT] is
    set; the curve is the root of the compiled expression or, under a root
    of another name, its first argument. *)
Theorem createFunction_zoom_stops (parameters propertySpec expr : value)
  (expectedType : tyref Ty) (compiled : Compiled S) (curve a0 a1 : Expression)
  (pairs : list (Expression * Expression)) (serialized interpolation : value) :
  normalize parameters propertySpec = Ok expr ->
  getExpectedType propertySpec = Ok expectedType ->
  compileExpression expr expectedType = CompileSuccess compiled ->
  compiled_isZoomConstant compiled = false ->
  compiled_isFeatureConstant compiled = true ->
  curve_located (compiled_expression compiled) curve ->
  expr_args curve = Some (a0 :: a1 :: interleave pairs) ->
  expr_serialize curve = Ok serialized ->
  member serialized "1" = Ok interpolation ->
  exists f, snd (createFunction parameters propertySpec) = Ok f
            /\ zoomStops f = Some (map (fun p => expr_value (fst p)) pairs)
            /\ interpolationT f = None
            /\ isZoomConstant f = false.
Proof.
  intros Hexpr Htype Hcompile Hzoom Hfeature Hlocated Hargs Hser Hinterp.
  unfold createFunction. rewrite Hexpr, Htype, Hcompile, Hzoom. cbn [negb].
  rewrite (curve_metadata_located compiled curve a0 a1 pairs serialized
             interpolation Hlocated Hargs Hser Hinterp).
  cbv zeta. rewrite Hfeature. cbn [negb snd]. eexists. split; [reflexivity|].
  cbn. auto.
Qed.

(** For a function of the zoom and of the feature, [createFunction] also
    compiles [['coalesce', ['curve', interpolation, ['zoom'], z0, 0, z1, 1,
    ...], 0]] against the Number type, the stops being paired with their
    indices: the compiled function of a success becomes [interpolationT],
    and a failure is an AssertionError instead of a function. *)
Theorem createFunction_interpolationT (parameters propertySpec expr : value)
  (expectedType : tyref Ty) (compiled : Compiled S) (curve a0 a1 : Expression)
  (pairs : list (Expression * Expression)) (serialized interpolation : value) :
  normalize parameters propertySpec = Ok expr ->
  getExpectedType propertySpec = Ok expectedType ->
  compileExpression expr expectedType = CompileSuccess compiled ->
  compiled_isZoomConstant compiled = false ->
  compiled_isFeatureConstant compiled = false ->
  curve_located (compiled_expression compiled) curve ->
  expr_args curve = Some (a0 :: a1 :: interleave pairs) ->
  expr_serialize curve = Ok serialized ->
  member serialized "1" = Ok interpolation ->
  match compileExpression
          (auxiliary_expression interpolation
             (map (fun p => expr_value (fst p)) pairs))
          (TyRef NumberType) with
  | CompileSuccess interpFunction =>
      exists f, snd (createFunction parameters propertySpec) = Ok f
                /\ zoomStops f = Some (map (fun p => expr_value (fst p)) pairs)
                /\ interpolationT f = Some (compiled_function interpFunction)
  | CompileFailure _ =>
      snd (createFunction parameters propertySpec) = Err AssertionError
  end.
Proof.
  intros Hexpr Htype Hcompile Hzoom Hfeature Hlocated Hargs Hser Hinterp.
  unfold createFunction. rewrite Hexpr, Htype, Hcompile, Hzoom. cbn [negb].
  rewrite (curve_metadata_located compiled curve a0 a1 pairs serialized
             interpolation Hlocated Hargs Hser Hinterp).
  cbv zeta. rewrite Hfeature. cbn [negb].
  destruct (compileExpression _ (TyRef NumberType)) as [interpFunction|errors].
  - cbn [snd]. eexists. split; [reflexivity|]. cbn. auto.
  - reflexivity.
Qed.

End BuilderResults.

(* ================================================================== *)
(** * The further properties on the sample hosts *)

Lemma has_reports_entries_witness :
  has (host := Sample.host) (object (PlainObject [("a", Num 1)])) "a" None
  = Ok (Bool true)
  /\ has (host := Sample.host) (object (PlainObject [("a", Num 1)])) "b" None
     = Ok (Bool false).
Proof.
  split.
  - exact (has_reports_entries (host := Sample.host) [("a", Num 1)] "a" None
             eq_refl).
  - exact (has_reports_entries (host := Sample.host) [("a", Num 1)] "b" None
             eq_refl).
Defined.

(** A feature with a property named hasOwnProperty cannot be read. *)
Lemma has_shadowed_by_entry_witness :
  has (host := Sample.host)
    (object (PlainObject [("a", Num 1); ("hasOwnProperty", Num 2)])) "a" None
  = Err TypeError
  /\ get (host := Sample.host)
       (object (PlainObject [("a", Num 1); ("hasOwnProperty", Num 2)])) "a" None
     = Err TypeError.
Proof.
  exact (has_shadowed_by_entry (host := Sample.host)
           [("a", Num 1); ("hasOwnProperty", Num 2)] (Num 2) "a" None eq_refl).
Defined.

Lemma get_unwrap_roundtrip_witness :
  get (host := Sample.host)
    (object (PlainObject [("a", PlainArray [Num 1; Num 2])])) "a" None
  = Ok (ArrayValue "Array<number>" (PlainArray [Num 1; Num 2]))
  /\ (v <- get (host := Sample.host)
             (object (PlainObject [("a", PlainArray [Num 1; Num 2])])) "a" None ;;
      unwrap (host := Sample.host) v)
     = Ok (PlainArray [Num 1; Num 2]).
Proof.
  exact (get_unwrap_roundtrip (host := Sample.host)
           [("a", PlainArray [Num 1; Num 2])] "a" (PlainArray [Num 1; Num 2])
           None eq_refl eq_refl).
Defined.

(** Index 1 of a two-item array reads the second item; index -1 passes the
    check and reads [undefined]; index 2 is refused. *)
Lemma at_bounds_witness :
  at_ (host := Formatting.host) (fun _ => PrimFloat.nan) 1
    (ArrayValue "Array<number>" (PlainArray [Num 7; Num 8]))
  = Ok (Num 8)
  /\ at_ (host := Formatting.host) (fun _ => PrimFloat.nan) (-1)
       (ArrayValue "Array<number>" (PlainArray [Num 7; Num 8]))
     = Ok Undefined
  /\ at_ (host := Formatting.host) (fun _ => PrimFloat.nan) 2
       (ArrayValue "Array<number>" (PlainArray [Num 7; Num 8]))
     = Err (RuntimeError "Array index out of bounds: 2 > 2.").
Proof.
  split; [|split].
  - exact (proj1 (proj2 (at_bounds (host := Formatting.host)
                           (fun _ => PrimFloat.nan) 1 "Array<number>"
                           [Num 7; Num 8]))
             1%nat (Num 8) eq_refl eq_refl eq_refl).
  - apply (proj2 (proj2 (at_bounds (host := Formatting.host)
                           (fun _ => PrimFloat.nan) (-1) "Array<number>"
                           [Num 7; Num 8]))).
    + reflexivity.
    + reflexivity.
    + discriminate.
  - exact (proj1 (at_bounds (host := Formatting.host)
                    (fun _ => PrimFloat.nan) 2 "Array<number>" [Num 7; Num 8])
             eq_refl).
Defined.

(** Above the stops 0, 10, 20 the search answers 1, not 2. *)
Lemma findStop_above_every_stop_witness :
  findStopLessThanOrEqualTo 3 [0; 10; 20]%float 25%float = Some 1%Z.
Proof.
  apply (findStop_above_every_stop 3 [0; 10; 20]%float 25%float).
  - intros x [<-|[<-|[<-|[]]]]; reflexivity.
  - simpl; lia.
Defined.

Lemma findStop_below_every_stop_witness :
  findStopLessThanOrEqualTo 3 [0; 10; 20]%float (-5)%float = Some 0%Z.
Proof.
  apply (findStop_below_every_stop 3 [0; 10; 20]%float (-5)%float).
  - intros x [<-|[<-|[<-|[]]]]; reflexivity.
  - simpl; lia.
Defined.

(** At the last stop itself the search answers the last index. *)
Lemma findStop_within_stops_witness :
  exists i, findStopLessThanOrEqualTo 3 [0; 10; 20]%float 20%float = Some i
            /\ greatest_stop_le [0; 10; 20]%float 20%float i.
Proof.
  apply (findStop_within_stops 3 [0; 10; 20]%float 20%float).
  - reflexivity.
  - reflexivity.
  - reflexivity.
  - simpl; lia.
Defined.

Lemma evaluateCurve_NaN_input_never_returns_witness :
  evaluateCurve (host := Sample.host) 1000 PrimFloat.nan [0; 10; 20]%float
    Sample.numbers Sample.linear "number" []
  = Diverges.
Proof.
  apply (evaluateCurve_NaN_input_never_returns (host := Sample.host)).
  - reflexivity.
  - simpl; lia.
Defined.

(** Linear interpolation at 15 between the outputs 2 (at 10) and 3 (at 20)
    is 2.5, after the two thunks have run in order. *)
Lemma evaluateCurve_blends_bracketing_outputs_witness :
  evaluateCurve (host := Sample.host) 3 15%float [0; 10; 20]%float
    Sample.numbers Sample.linear "number" []
  = Returns (Num 2.5) ["b"; "c"].
Proof.
  refine (eq_trans
            (proj1 (evaluateCurve_blends_bracketing_outputs (host := Sample.host)
                      3 15%float [0; 10; 20]%float Sample.numbers Sample.linear
                      "number" [] 1%Z _ _ _ _ _ _ _ _ _)
                   (Num 2) (Num 3) ["b"] ["b"; "c"] eq_refl eq_refl)
            eq_refl).
  - simpl; lia.
  - reflexivity.
  - reflexivity.
  - reflexivity.
  - simpl; lia.
  - discriminate.
  - discriminate.
  - discriminate.
  - split; [simpl; lia|]. split; [reflexivity|].
    intros j Hj. assert (j = 2%Z) as -> by (simpl in Hj; lia). reflexivity.
Defined.

(** Halfway from black to white. *)
Lemma evaluateCurve_blends_colors_witness :
  evaluateCurve (host := Sample.host) 2 5%float [0; 10]%float
    [Sample.returning "black" (ColorValue 0 0 0 (Num 1));
     Sample.returning "white" (ColorValue 1 1 1 (Num 1))]
    Sample.linear "color" []
  = Returns (ColorValue 0.5 0.5 0.5 (Num 1)) ["black"; "white"]
  /\ typeOf (ColorValue 0.5 0.5 0.5 (Num 1)) = Str "Color"
  /\ unwrap (host := Sample.host) (ColorValue 0.5 0.5 0.5 (Num 1))
     = Ok (PlainArray [Num 0.5; Num 0.5; Num 0.5; Num 1]).
Proof.
  apply (evaluateCurve_blends_colors (host := Sample.host) 2 5%float
           [0; 10]%float
           [Sample.returning "black" (ColorValue 0 0 0 (Num 1));
            Sample.returning "white" (ColorValue 1 1 1 (Num 1))]
           Sample.linear [] ["black"] ["black"; "white"] 0%Z
           (ColorValue 0 0 0 (Num 1)) (ColorValue 1 1 1 (Num 1))
           (PlainArray [Num 0; Num 0; Num 0; Num 1])
           (PlainArray [Num 1; Num 1; Num 1; Num 1])
           (PlainArray [Num 0.5; Num 0.5; Num 0.5; Num 1])).
  - simpl; lia.
  - reflexivity.
  - reflexivity.
  - reflexivity.
  - simpl; lia.
  - discriminate.
  - split; [simpl; lia|]. split; [reflexivity|].
    intros j Hj. assert (j = 1%Z) as -> by (simpl in Hj; lia). reflexivity.
  - reflexivity.
  - reflexivity.
  - reflexivity.
  - reflexivity.
  - reflexivity.
Defined.

(** A failing expression followed by the default 0. *)
Lemma coalesce_with_default_witness :
  exists v s',
    coalesce [Sample.failing "expression" "boom"; Sample.returning "default" (Num 0)]
      []
    = Returns v s' /\ v <> Null.
Proof.
  apply (coalesce_with_default [Sample.failing "expression" "boom"]
           (Sample.returning "default" (Num 0))).
  - constructor; [discriminate|constructor].
  - intros s. exists (Num 0), (s ++ ["default"])%list.
    split; [reflexivity|discriminate].
Defined.

(** The literal 5 against a number property. *)
Lemma createFunction_wraps_compiled_witness :
  exists f,
    snd (createFunction (collab := Sample.collaborators) (Num 5)
           (PlainObject [("type", Str "number")])) = Ok f
    /\ exists expr expectedType compiled,
        compileExpression (Collaborators := Sample.collaborators) expr expectedType
        = CompileSuccess compiled
        /\ isFeatureConstant f = compiled_isFeatureConstant compiled
        /\ isZoomConstant f = compiled_isZoomConstant compiled
        /\ (isZoomConstant f = true ->
            zoomStops f = None /\ interpolationT f = None)
        /\ (forall zoom properties s,
               f_call f zoom properties s
               = match compiled_function compiled (PlainObject [("zoom", zoom)])
                         (PlainObject [("properties", properties)]) s with
                 | Returns v s' => Returns (if is_null v then Undefined else v) s'
                 | Throws e s' => Throws e s'
                 | Diverges => Diverges
                 end)
        /\ (forall zoom properties s v s',
               f_call f zoom properties s = Returns v s' -> v <> Null).
Proof.
  eexists. split; [reflexivity|].
  apply (createFunction_wraps_compiled (collab := Sample.collaborators)
           (Num 5) (PlainObject [("type", Str "number")])).
  reflexivity.
Defined.

(** The stops of [['curve', ['linear'], ['zoom'], 0, 1, 10, 2]] are 0 and
    10. *)
Lemma createFunction_zoom_stops_witness :
  exists f,
    snd (createFunction (collab := ZoomSample.collaborators) (Str "zoom")
           (PlainObject [("type", Str "number")])) = Ok f
    /\ zoomStops f = Some [Num 0; Num 10]
    /\ interpolationT f = None
    /\ isZoomConstant f = false.
Proof.
  apply (createFunction_zoom_stops (collab := ZoomSample.collaborators)
           (Str "zoom") (PlainObject [("type", Str "number")]) (Str "zoom")
           (TyRef "Number")
           {| compiled_function := ZoomSample.constantly (Num 1);
              compiled_isFeatureConstant := true;
              compiled_isZoomConstant := false;
              compiled_expression := ZoomSample.curve |}
           ZoomSample.curve
           (ExpressionNode (Str "linear") None Undefined
              (Ok (PlainArray [Str "linear"])))
           (ExpressionNode (Str "zoom") (Some []) Undefined
              (Ok (PlainArray [Str "zoom"])))
           [(ZoomSample.literal (Num 0), ZoomSample.literal (Num 1));
            (ZoomSample.literal (Num 10), ZoomSample.literal (Num 2))]
           (PlainArray [Str "curve"; PlainArray [Str "linear"];
                        PlainArray [Str "zoom"]; Num 0; Num 1; Num 10; Num 2])
           (PlainArray [Str "linear"])); try reflexivity.
  left. split; reflexivity.
Defined.

(** Under a coalesce, for a function that reads the feature too. *)
Lemma createFunction_interpolationT_witness :
  exists f,
    snd (createFunction (collab := ZoomSample.collaborators)
           (Str "zoom and feature") (PlainObject [("type", Str "number")]))
    = Ok f
    /\ zoomStops f = Some [Num 0; Num 10]
    /\ interpolationT f = Some (ZoomSample.constantly (Num 0.5)).
Proof.
  apply (createFunction_interpolationT (collab := ZoomSample.collaborators)
           (Str "zoom and feature") (PlainObject [("type", Str "number")])
           (Str "zoom and feature") (TyRef "Number")
           {| compiled_function := ZoomSample.constantly Null;
              compiled_isFeatureConstant := false;
              compiled_isZoomConstant := false;
              compiled_expression :=
                ExpressionNode (Str "coalesce")
                  (Some [ZoomSample.curve; ZoomSample.literal (Num 0)])
                  Undefined (Ok (PlainArray [Str "coalesce"])) |}
           ZoomSample.curve
           (ExpressionNode (Str "linear") None Undefined
              (Ok (PlainArray [Str "linear"])))
           (ExpressionNode (Str "zoom") (Some []) Undefined
              (Ok (PlainArray [Str "zoom"])))
           [(ZoomSample.literal (Num 0), ZoomSample.literal (Num 1));
            (ZoomSample.literal (Num 10), ZoomSample.literal (Num 2))]
           (PlainArray [Str "curve"; PlainArray [Str "linear"];
                        PlainArray [Str "zoom"]; Num 0; Num 1; Num 10; Num 2])
           (PlainArray [Str "linear"])); try reflexivity.
  right. split; [reflexivity|]. eexists. reflexivity.
Defined.
